(** * vis_pae.py: chain segmentation and figure composition

    A shallow embedding of [src/vis_pae.py], the script that renders the
    Predicted Aligned Error matrices of an AlphaFold 3 prediction.

    - Python values: chain labels are strings (compared by code point, which
      on UTF-8 bytes is the byte-wise lexicographic order of
      [String.compare]; the array of line 47 drops their trailing NUL
      characters), positions and integer codes are [nat], residue
      numbers are [Z], plot coordinates are [Q] (the halves the script
      computes are exact in binary floating point).
    - Python dictionaries keep insertion order and are iterated by the
      script, so they are association lists with Python's update-or-append
      assignment.
    - Exceptions are an error monad ([Py.result]); the script as a whole runs
      in a monad that also logs the files opened, the lines printed and the
      figures saved.
    - matplotlib is modelled by the calls the script makes on the figure, in
      call order; what the library validates or rasterises is not modelled:
      [np.array] on the [pae], [imshow] and [savefig] are recorded and never
      raise here, whereas the libraries raise on a ragged or empty [pae], on
      a missing output directory or on a label that is not valid mathtext.
      A [Savefig] event is the call of [savefig] with the figure composed so
      far; what is stated of saved figures is stated of these calls, and
      nothing is stated to succeed because of them. *)

From Stdlib Require Import List String Ascii Bool Arith ZArith QArith Lia.
From Stdlib Require Import Sorted Permutation DecimalString OrderedTypeEx.
Import ListNotations.

Local Open Scope string_scope.
Local Open Scope list_scope.
Local Open Scope nat_scope.

(* ================================================================= *)
(** ** Python runtime *)

Module Py.

Inductive exn : Type :=
| FileNotFoundError (path : string)
| JSONDecodeError (path : string)
| AttributeError (attr : string)
| TypeError
| KeyError (key : string)
| IndexError
| SystemExit (code : Z).

Inductive result (A : Type) : Type :=
| Ok (a : A)
| Raise (e : exn).
Arguments Ok {A} a.
Arguments Raise {A} e.

Definition bind {A B : Type} (r : result A) (k : A -> result B) : result B :=
  match r with
  | Ok a => k a
  | Raise e => Raise e
  end.

(** [[f x for x in l]] with a body that may raise. *)
Fixpoint mapM {A B : Type} (f : A -> result B) (l : list A) : result (list B) :=
  match l with
  | [] => Ok []
  | x :: l' =>
      bind (f x) (fun y => bind (mapM f l') (fun ys => Ok (y :: ys)))
  end.

(** [for x in l: acc = body(acc, x)] with a body that may raise. *)
Fixpoint foldM {A S : Type} (body : S -> A -> result S) (l : list A) (acc : S)
  : result S :=
  match l with
  | [] => Ok acc
  | x :: l' => bind (body acc x) (foldM body l')
  end.

(** Insertion-ordered dictionaries with string keys. *)
Definition dict (V : Type) : Type := list (string * V).

Fixpoint dict_get {V : Type} (d : dict V) (k : string) : option V :=
  match d with
  | [] => None
  | (k', v) :: d' => if String.eqb k' k then Some v else dict_get d' k
  end.

(** [d[k] = v]: an existing key keeps its place, a new one goes last. *)
Fixpoint dict_set {V : Type} (d : dict V) (k : string) (v : V) : dict V :=
  match d with
  | [] => [(k, v)]
  | (k', v') :: d' =>
      if String.eqb k' k then (k', v) :: d' else (k', v') :: dict_set d' k v
  end.

(** [d[k]] *)
Definition getitem {V : Type} (d : dict V) (k : string) : result V :=
  match dict_get d k with
  | Some v => Ok v
  | None => Raise (KeyError k)
  end.

Definition keys {V : Type} (d : dict V) : list string := map fst d.
Definition values {V : Type} (d : dict V) : list V := map snd d.
Definition items {V : Type} (d : dict V) : list (string * V) := d.

Fixpoint enumerate_from {A : Type} (i : nat) (l : list A) : list (nat * A) :=
  match l with
  | [] => []
  | x :: l' => (i, x) :: enumerate_from (S i) l'
  end.

Definition enumerate {A : Type} (l : list A) : list (nat * A) :=
  enumerate_from 0 l.

Definition range (n : nat) : list nat := seq 0 n.

(** [l[i]] for [i >= 0] *)
Definition list_getitem {A : Type} (l : list A) (i : nat) : result A :=
  match nth_error l i with
  | Some x => Ok x
  | None => Raise IndexError
  end.

(** [l[-1]] *)
Fixpoint list_getitem_last {A : Type} (l : list A) : result A :=
  match l with
  | [] => Raise IndexError
  | x :: l' =>
      match l' with
      | [] => Ok x
      | _ :: _ => list_getitem_last l'
      end
  end.

(** [str(n)] *)
Definition str (n : nat) : string := NilEmpty.string_of_uint (Nat.to_uint n).

(** [posixpath.join(a, b)] *)
Definition endswith_sep (s : string) : bool :=
  match get (String.length s - 1) s with
  | Some c => Ascii.eqb c "/"%char
  | None => false
  end.

Definition os_path_join (a b : string) : string :=
  if prefix "/" b then b
  else if (String.length a =? 0) || endswith_sep a then a ++ b
  else a ++ "/" ++ b.

(** Exit status of the interpreter for the outcome of the script. *)
Definition exit_status {A : Type} (r : result A) : Z :=
  match r with
  | Ok _ => 0%Z
  | Raise (SystemExit code) => code
  | Raise _ => 1%Z
  end.

End Py.

Import Py.

Declare Scope py_scope.
Delimit Scope py_scope with py.
Notation "x <- c ;; k" := (Py.bind c (fun x => k))
  (at level 61, c at next level, right associativity) : py_scope.
Notation "' p <- c ;; k" := (Py.bind c (fun p => k))
  (at level 61, p pattern, c at next level, right associativity) : py_scope.

(* ================================================================= *)
(** ** NumPy *)

Module Np.

(** An element of a fixed-width unicode array, read back: the string without
    its trailing NUL characters, which the array cannot tell from its
    padding. *)
Fixpoint rstrip_nul (s : string) : string :=
  match s with
  | EmptyString => EmptyString
  | String c s' =>
      match rstrip_nul s' with
      | EmptyString =>
          if Ascii.eqb c Ascii.zero then EmptyString else String c EmptyString
      | String c' r => String c (String c' r)
      end
  end.

(** [np.array(l)] of a list of strings, as the list of its elements. *)
Definition array (l : list string) : list string := map rstrip_nul l.

(** [ar.sort()] on an array of strings: insertion into a sorted list;
    on a total order every sorting algorithm returns this list. *)
Fixpoint insert (x : string) (l : list string) : list string :=
  match l with
  | [] => [x]
  | y :: l' => if String.leb x y then x :: l else y :: insert x l'
  end.

Definition sort (l : list string) : list string := fold_right insert [] l.

(** The mask [ar[1:] != ar[:-1]] of [np.unique]: an element is kept when it
    differs from the one before it. *)
Fixpoint drop_repeats (l : list string) : list string :=
  match l with
  | [] => []
  | x :: l' =>
      match l' with
      | [] => [x]
      | y :: _ => if String.eqb x y then drop_repeats l' else x :: drop_repeats l'
      end
  end.

(** [np.unique(ar)] *)
Definition unique (ar : list string) : list string := drop_repeats (sort ar).

(** [np.where(ar == c)[0]] *)
Fixpoint where_eq_from (i : nat) (ar : list string) (c : string) : list nat :=
  match ar with
  | [] => []
  | x :: ar' =>
      if String.eqb x c then i :: where_eq_from (S i) ar' c
      else where_eq_from (S i) ar' c
  end.

Definition where_eq (ar : list string) (c : string) : list nat :=
  where_eq_from 0 ar c.

(** [np.array(l).reshape(1, -1)] of a flat list *)
Definition reshape_1 {A : Type} (l : list A) : list (list A) := [l].

(** [a.T] of a two-dimensional array *)
Fixpoint T {A : Type} (a : list (list A)) : list (list A) :=
  match a with
  | [] => []
  | row :: rest =>
      match rest with
      | [] => map (fun x => [x]) row
      | _ :: _ => map (fun p => fst p :: snd p) (combine row (T rest))
      end
  end.

Definition shape {A : Type} (a : list (list A)) : nat * nat :=
  (List.length a, match a with [] => 0 | row :: _ => List.length row end).

End Np.

(* ================================================================= *)
(** ** The chain segmenter *)

(** What [process_token_chains] returns: [chain_to_num],
    [chain_to_start_index], [chain_to_end_index] and [token_chain_nums]. *)
Definition segmentation : Type :=
  (dict nat * dict nat * dict nat * list (list nat))%type.

(** Line 51: [{char: i for i, char in enumerate(unique_chains)}] *)
Definition chain_to_num_of (unique_chains : list string) : dict nat :=
  fold_left (fun d ic => dict_set d (snd ic) (fst ic)) (enumerate unique_chains) [].

(** Lines 61-63: the body of the loop over [unique_chains]; [acc] holds
    [chain_to_start_index] and [chain_to_end_index]. *)
Definition start_end_step (token_chain_ids : list string)
  (acc : dict nat * dict nat) (char : string) : result (dict nat * dict nat) :=
  (let indices := Np.where_eq token_chain_ids char in
   first <- list_getitem indices 0 ;;
   last <- list_getitem_last indices ;;
   Ok (dict_set (fst acc) char first, dict_set (snd acc) char last))%py.

(** Lines 35-65. The empty list becomes an empty array, of which
    [np.unique] and [reshape(1, -1)] are defined. *)
Definition process_token_chains (token_chain_ids : list string)
  : result segmentation :=
  (let token_chain_ids := Np.array token_chain_ids in
   let unique_chains := Np.unique token_chain_ids in
   let chain_to_num := chain_to_num_of unique_chains in
   nums <- mapM (fun char => getitem chain_to_num char) token_chain_ids ;;
   let token_chain_nums := Np.reshape_1 nums in
   se <- foldM (start_end_step token_chain_ids) unique_chains ([], []) ;;
   Ok (chain_to_num, fst se, snd se, token_chain_nums))%py.

(* ================================================================= *)
(** ** Input files *)

Module Json.

(** A JSON object of an AlphaFold 3 prediction, as far as the script looks
    into it: the three keys it reads, each present or absent and typed as
    the AlphaFold 3 output has them, and the other members (name and
    text), which it never reads. *)
Record object : Type := {
  token_chain_ids : option (list string);
  token_res_ids : option (list Z);
  pae : option (list (list Q));
  members : list (string * string)
}.

(** What [json.load] returns: an object (a Python [dict]) or any other
    JSON value (array, string, number, boolean, null). *)
Inductive json : Type :=
| JObject (o : object)
| JOther.

Definition present {A : Type} (key : string) (v : option A) : list string :=
  match v with
  | Some _ => [key]
  | None => []
  end.

(** [j.keys()] *)
Definition keys (j : json) : result (list string) :=
  match j with
  | JObject o =>
      Ok (present "token_chain_ids" (token_chain_ids o)
          ++ present "token_res_ids" (token_res_ids o)
          ++ present "pae" (pae o)
          ++ map fst (members o))
  | JOther => Raise (AttributeError "keys")
  end.

(** [j[key]] for the three keys the script reads *)
Definition getitem {A : Type} (field : object -> option A) (key : string)
  (j : json) : result A :=
  match j with
  | JObject o =>
      match field o with
      | Some v => Ok v
      | None => Raise (KeyError key)
      end
  | JOther => Raise TypeError
  end.

End Json.

(** Content of a file: text that is valid JSON or not. *)
Inductive file : Type :=
| Malformed
| Valid (j : Json.json).

(** The files the script can read, by path; [None] is a missing file. *)
Definition filesystem : Type := string -> option file.

(* ================================================================= *)
(** ** matplotlib *)

Module Plt.

Inductive axes : Type := ax | ax_colorbar | ax_topbar | ax_leftbar.

Inductive ndarray : Type :=
| float_array (a : list (list Q))
| int_array (a : list (list nat)).

(** The calls the script makes on a figure. *)
Inductive call : Type :=
| subplots (width height : Z)
| imshow (a : axes) (data : ndarray) (cmap : string) (vmin vmax : option Q)
    (aspect : option string) (alpha : option Q)
| set_xticks (a : axes) (ticks : list Q)
| set_yticks (a : axes) (ticks : list Q)
| spine_set_linestyle (a : axes) (spine : string) (linestyle : string)
| spine_set_linewidth (a : axes) (spine : string) (linewidth : Z)
| spine_set_color (a : axes) (spine : string) (color : string)
| spine_set_visible (a : axes) (spine : string) (visible : bool)
| append_axes (a : axes) (position size : string) (pad : Q)
| colorbar (image cax : axes) (label : string)
| axhline (a : axes) (y : Q) (color : string) (linewidth : Z) (linestyle : string)
| axvline (a : axes) (x : Q) (color : string) (linewidth : Z) (linestyle : string)
| text (a : axes) (x y : Q) (s : string) (color ha va : string).

(** A figure is the sequence of calls made on it. *)
Definition figure : Type := list call.

(** [ax.spines.values()] *)
Definition spines : list string := ["left"; "right"; "bottom"; "top"].

End Plt.

Import Plt.

Definition hide_axes_frame (a : axes) : figure :=
  map (fun spine => spine_set_visible a spine false) spines
  ++ [set_xticks a []; set_yticks a []].

(* ================================================================= *)
(** ** The script *)

(** What the script does to the outside world. *)
Inductive event : Type :=
| Open (path : string)
| Print (line : string)
| Savefig (path : string) (dpi : Z) (bbox_inches : string) (transparent : bool)
    (fig : figure).

Module IO.

(** Computations that may raise and that log their events, oldest first. *)
Definition t (A : Type) : Type := list event -> list event * result A.

Definition ret {A : Type} (a : A) : t A := fun tr => (tr, Ok a).

Definition bind {A B : Type} (m : t A) (k : A -> t B) : t B :=
  fun tr =>
    match m tr with
    | (tr', Ok a) => k a tr'
    | (tr', Raise e) => (tr', Raise e)
    end.

Definition lift {A : Type} (r : result A) : t A := fun tr => (tr, r).

Definition emit (e : event) : t unit := fun tr => (tr ++ [e], Ok tt).

Fixpoint mapM {A B : Type} (f : A -> t B) (l : list A) : t (list B) :=
  match l with
  | [] => ret []
  | x :: l' => bind (f x) (fun y => bind (mapM f l') (fun ys => ret (y :: ys)))
  end.

(** [for x in l: body(x)] *)
Fixpoint for_each {A : Type} (l : list A) (body : A -> t unit) : t unit :=
  match l with
  | [] => ret tt
  | x :: l' => bind (body x) (fun _ => for_each l' body)
  end.

Definition run {A : Type} (m : t A) : list event * result A := m [].

End IO.

Declare Scope io_scope.
Delimit Scope io_scope with io.
Notation "x <- c ;; k" := (IO.bind c (fun x => k))
  (at level 61, c at next level, right associativity) : io_scope.

(** [json.load(open(path))] *)
Definition json_load_open (fs : filesystem) (path : string) : IO.t Json.json :=
  (_ <- IO.emit (Open path) ;;
   match fs path with
   | None => IO.lift (Raise (FileNotFoundError path))
   | Some Malformed => IO.lift (Raise (JSONDecodeError path))
   | Some (Valid j) => IO.ret j
   end)%io.

(** The loop of lines 94-99; [token_res_ids == 1] compares a list with a
    number and is false. *)
Definition xticks (token_res_ids : list Z) : list nat * list Z :=
  fold_left
    (fun acc i =>
       let r := nth i token_res_ids 0%Z in
       if false || (r mod 200 =? 0)%Z
       then (fst acc ++ [i], snd acc ++ [r])
       else acc)
    (range (List.length token_res_ids)) ([], []).

(** [x - 0.5] and [(x + y) / 2] on positions *)
Definition of_pos (n : nat) : Q := inject_Z (Z.of_nat n).

(** Lines 141-146. *)
Definition boundary_lines (chain_to_start_index : dict nat) : figure :=
  flat_map
    (fun item =>
       let start_index := snd item in
       if negb (start_index =? 0) then
         [axhline ax (of_pos start_index - (1 # 2)) "k" 1 "--";
          axvline ax (of_pos start_index - (1 # 2)) "k" 1 "--";
          axvline ax_topbar (of_pos start_index - (1 # 2)) "w" 1 "-";
          axhline ax_leftbar (of_pos start_index - (1 # 2)) "w" 1 "-"]
       else [])
    (items chain_to_start_index).

(** Lines 149-156. *)
Definition chain_labels (chain_to_start_index chain_to_end_index : dict nat)
  : result figure :=
  foldM
    (fun fig char =>
       start_index <- getitem chain_to_start_index char ;;
       end_index <- getitem chain_to_end_index char ;;
       let center_index := (of_pos (start_index + end_index) / 2)%Q in
       Ok (fig ++ [text ax_topbar center_index 0 char "#222222" "center" "center";
                   text ax_leftbar 0 center_index char "#222222" "center" "center"]))%py
    (keys chain_to_start_index) [].

(** One iteration of the loop of [main], up to the call of [savefig]:
    the figure composed for [model_num]. *)
Definition compose (json_data_full json_data_confidence : list Json.json)
  (model_num : nat) : result figure :=
  (full <- list_getitem json_data_full model_num ;;
   _ <- Json.keys full ;;
   confidence <- list_getitem json_data_confidence model_num ;;
   _ <- Json.keys confidence ;;
   ids <- Json.getitem Json.token_chain_ids "token_chain_ids" full ;;
   seg <- process_token_chains ids ;;
   let chain_to_start_index := snd (fst (fst seg)) in
   let chain_to_end_index := snd (fst seg) in
   let token_chain_nums := snd seg in
   token_res_ids <- Json.getitem Json.token_res_ids "token_res_ids" full ;;
   let xt := xticks token_res_ids in
   let fig := [subplots 4 4] in
   pae_array <- Json.getitem Json.pae "pae" full ;;
   let fig := fig ++ [imshow ax (float_array pae_array) "Greens_r"
                        (Some 0%Q) (Some 30%Q) None None;
                      set_yticks ax []] in
   let fig := fig ++ flat_map (fun spine =>
                        [spine_set_linestyle ax spine "--";
                         spine_set_linewidth ax spine 1;
                         spine_set_color ax spine "k"]) spines in
   let fig := fig ++ [append_axes ax_colorbar "right" "5%" (2 # 10);
                      append_axes ax_topbar "top" "8%" (3 # 100);
                      append_axes ax_leftbar "left" "8%" (3 # 100)] in
   let fig := fig ++ [imshow ax_topbar (int_array token_chain_nums) "tab10"
                        None None (Some "auto") (Some (7 # 10))]
                  ++ hide_axes_frame ax_topbar in
   let fig := fig ++ [imshow ax_leftbar (int_array (Np.T token_chain_nums)) "tab10"
                        None None (Some "auto") (Some (7 # 10))]
                  ++ hide_axes_frame ax_leftbar in
   let fig := fig ++ [colorbar ax ax_colorbar "PAE (Å)"] in
   let fig := fig ++ boundary_lines chain_to_start_index in
   labels <- chain_labels chain_to_start_index chain_to_end_index ;;
   Ok (fig ++ labels))%py.

(** Lines 70-71. *)
Definition json_name_full (alphafold_prediction_name : string) : list string :=
  map (fun i => os_path_join alphafold_prediction_name
                  (alphafold_prediction_name ++ "_full_data_" ++ str i ++ ".json"))
    (range 5).

Definition json_name_confidence (alphafold_prediction_name : string) : list string :=
  map (fun i => os_path_join alphafold_prediction_name
                  (alphafold_prediction_name ++ "_summary_confidences_" ++ str i ++ ".json"))
    (range 5).

(** Line 159: the path given to [savefig]. *)
Definition figure_name (alphafold_prediction_name : string) (model_num : nat) : string :=
  alphafold_prediction_name ++ "/figure_pae_" ++ str model_num ++ ".png".

Definition main (fs : filesystem) (alphafold_prediction_name : string)
  : IO.t unit :=
  (json_data_full <- IO.mapM (json_load_open fs) (json_name_full alphafold_prediction_name) ;;
   json_data_confidence <- IO.mapM (json_load_open fs) (json_name_confidence alphafold_prediction_name) ;;
   IO.for_each (range 5) (fun model_num =>
     fig <- IO.lift (compose json_data_full json_data_confidence model_num) ;;
     IO.emit (Savefig (figure_name alphafold_prediction_name model_num)
                300 "tight" false fig)))%io.

(** The [__main__] guard, on [sys.argv]. *)
Definition script (fs : filesystem) (argv : list string) : IO.t unit :=
  (if List.length argv <? 2 then
     _ <- IO.emit (Print "Usage: python vis_pae.py <alphafold_prediction_directory>") ;;
     IO.lift (Raise (SystemExit 1))
   else
     alphafold_prediction_name <- IO.lift (list_getitem argv 1) ;;
     main fs alphafold_prediction_name)%io.

(** The characters of a string, each as a one-character label. *)
Definition chars (s : string) : list string :=
  map (fun c => String c EmptyString) (list_ascii_of_string s).

(* ================================================================= *)
(** ** Vocabulary of the specification *)

(** [s] is the least position of [ids] holding [c]. *)
Definition first_occurrence (ids : list string) (c : string) (s : nat) : Prop :=
  nth_error ids s = Some c /\ forall j, j < s -> nth_error ids j <> Some c.

(** [e] is the greatest position of [ids] holding [c]. *)
Definition last_occurrence (ids : list string) (c : string) (e : nat) : Prop :=
  nth_error ids e = Some c /\ forall j, e < j -> nth_error ids j <> Some c.

(** Strict lexicographic order on labels. *)
Definition label_lt (a b : string) : Prop := String.ltb a b = true.

(** Its reflexive closure. *)
Definition label_le (a b : string) : Prop := a = b \/ label_lt a b.

(** The distinct labels of a sequence, in order of first appearance. *)
Definition distinct (ids : list string) : list string := nodup string_dec ids.

(** The last character of [s] is NUL. *)
Fixpoint ends_with_nul (s : string) : bool :=
  match s with
  | EmptyString => false
  | String c s' =>
      match s' with
      | EmptyString => Ascii.eqb c Ascii.zero
      | String _ _ => ends_with_nul s'
      end
  end.

(** No label ends in NUL. The array that line 47 builds has a fixed-width
    unicode dtype, which drops trailing NUL characters, so that ["A"]
    followed by NUL and ["A"] are one label for the script; for labels that
    do not end in NUL the labels of the array are those of the input. *)
Definition clean_labels (ids : list string) : Prop :=
  forall c, In c ids -> ends_with_nul c = false.

(** The chain labels of the full-data files that a run with the arguments
    [argv] reads do not end in NUL. *)
Definition clean_inputs (fs : filesystem) (argv : list string) : Prop :=
  forall name p o ids,
    nth_error argv 1 = Some name ->
    In p (json_name_full name) ->
    fs p = Some (Valid (Json.JObject o)) ->
    Json.token_chain_ids o = Some ids ->
    clean_labels ids.

(** Boundary lines and labels among the calls on a figure. *)
Definition is_line (c : call) : bool :=
  match c with
  | axhline _ _ _ _ _ | axvline _ _ _ _ _ => true
  | _ => false
  end.

Definition is_text (c : call) : bool :=
  match c with
  | text _ _ _ _ _ _ _ => true
  | _ => false
  end.

Definition is_savefig (ev : event) : bool :=
  match ev with
  | Savefig _ _ _ _ _ => true
  | _ => false
  end.

Definition is_open (ev : event) : bool :=
  match ev with
  | Open _ => true
  | _ => false
  end.

(** The four separators the script draws before a chain that starts at
    position [s]. *)
Definition separators (s : nat) : list call :=
  [axhline ax (of_pos s - (1 # 2)) "k" 1 "--";
   axvline ax (of_pos s - (1 # 2)) "k" 1 "--";
   axvline ax_topbar (of_pos s - (1 # 2)) "w" 1 "-";
   axhline ax_leftbar (of_pos s - (1 # 2)) "w" 1 "-"].

(** The two labels the script writes for a chain [c] recorded from [s] to
    [e]. *)
Definition label_texts (c : string) (s e : nat) : list call :=
  [text ax_topbar (of_pos (s + e) / 2) 0 c "#222222" "center" "center";
   text ax_leftbar 0 (of_pos (s + e) / 2) c "#222222" "center" "center"].

(** Two full-data files that differ at most in the values of
    [token_res_ids], of the same length. *)
Definition same_but_res_ids (f1 f2 : option file) : Prop :=
  f1 = f2
  \/ exists o1 o2 r1 r2,
       f1 = Some (Valid (Json.JObject o1))
       /\ f2 = Some (Valid (Json.JObject o2))
       /\ Json.token_chain_ids o1 = Json.token_chain_ids o2
       /\ Json.pae o1 = Json.pae o2
       /\ Json.token_res_ids o1 = Some r1
       /\ Json.token_res_ids o2 = Some r2
       /\ List.length r1 = List.length r2.

(** Two summary-confidences files that are the same or both parse to JSON
    objects, whatever these hold. *)
Definition same_but_summary (f1 f2 : option file) : Prop :=
  f1 = f2
  \/ exists o1 o2,
       f1 = Some (Valid (Json.JObject o1)) /\ f2 = Some (Valid (Json.JObject o2)).

(* ================================================================= *)
(** ** Example inputs *)

Definition example_full : Json.json :=
  Json.JObject
    {| Json.token_chain_ids := Some (chars "AAABBBCCC");
       Json.token_res_ids := Some [1; 2; 3; 1; 2; 3; 1; 2; 3]%Z;
       Json.pae :=
         Some (map (fun i => map (fun j => inject_Z (Z.abs (Z.of_nat i - Z.of_nat j)))
                               (range 9))
                 (range 9));
       Json.members := [] |}.

Definition example_confidence : Json.json :=
  Json.JObject
    {| Json.token_chain_ids := None;
       Json.token_res_ids := None;
       Json.pae := None;
       Json.members := [("ptm", "0.5")] |}.

(** A complete prediction directory [fold]. *)
Definition example_fs : filesystem :=
  fun path =>
    if existsb (String.eqb path) (json_name_full "fold")
    then Some (Valid example_full)
    else if existsb (String.eqb path) (json_name_confidence "fold")
    then Some (Valid example_confidence)
    else None.

(** The same directory without the summary of model 1. *)
Definition fs_model_1_incomplete : filesystem :=
  fun path =>
    if String.eqb path "fold/fold_summary_confidences_1.json" then None
    else example_fs path.

(** The same directory where the summary of model 0 is the JSON array
    [[]]. *)
Definition fs_summary_0_array : filesystem :=
  fun path =>
    if String.eqb path "fold/fold_summary_confidences_0.json"
    then Some (Valid Json.JOther)
    else example_fs path.

(** The same directory with other residue numbers and other summaries. *)
Definition example_fs_renumbered : filesystem :=
  fun path =>
    if existsb (String.eqb path) (json_name_full "fold")
    then Some (Valid (Json.JObject
                        {| Json.token_chain_ids := Some (chars "AAABBBCCC");
                           Json.token_res_ids :=
                             Some [198; 199; 200; 1; 2; 3; 400; 401; 402]%Z;
                           Json.pae :=
                             Some (map (fun i =>
                                          map (fun j => inject_Z (Z.abs (Z.of_nat i - Z.of_nat j)))
                                            (range 9))
                                     (range 9));
                           Json.members := [] |}))
    else if existsb (String.eqb path) (json_name_confidence "fold")
    then Some (Valid (Json.JObject
                        {| Json.token_chain_ids := None;
                           Json.token_res_ids := None;
                           Json.pae := None;
                           Json.members := [("ptm", "0.9"); ("iptm", "0.1")] |}))
    else None.

Definition example_argv : list string := ["vis_pae.py"; "fold"].

(** The figure of model 0 of [example_fs]. *)
Definition example_figure : figure :=
  Eval vm_compute in
    match compose [example_full] [example_confidence] 0 with
    | Ok fig => fig
    | Raise _ => []
    end.

(* ================================================================= *)
(** ** Vocabulary for whole runs *)

(** The paths of the figures saved in a log, in order. *)
Definition saved_paths (tr : list event) : list string :=
  flat_map (fun ev =>
              match ev with
              | Savefig path _ _ _ _ => [path]
              | _ => []
              end) tr.

(** The key of a full-data object that the loop of [main] misses first: it
    reads [token_chain_ids] on line 90, [token_res_ids] on line 93 and [pae]
    on line 106. *)
Definition first_missing_key (o : Json.object) : option string :=
  match Json.token_chain_ids o, Json.token_res_ids o, Json.pae o with
  | None, _, _ => Some "token_chain_ids"
  | Some _, None, _ => Some "token_res_ids"
  | Some _, Some _, None => Some "pae"
  | Some _, Some _, Some _ => None
  end.

(** All ten input files of the prediction [name] are there and parse. *)
Definition all_parse (fs : filesystem) (name : string) : Prop :=
  forall p, In p (json_name_full name ++ json_name_confidence name) ->
            exists j, fs p = Some (Valid j).

(** The two files of model [i] parse to [full] and [confidence]. *)
Definition model_files (fs : filesystem) (name : string) (i : nat)
  (full confidence : Json.json) : Prop :=
  exists pf pc,
    nth_error (json_name_full name) i = Some pf
    /\ nth_error (json_name_confidence name) i = Some pc
    /\ fs pf = Some (Valid full)
    /\ fs pc = Some (Valid confidence).

(** Both files of model [i] hold objects, and the full-data object has the
    three keys. *)
Definition complete (fs : filesystem) (name : string) (i : nat) : Prop :=
  exists o oc,
    model_files fs name i (Json.JObject o) (Json.JObject oc)
    /\ first_missing_key o = None.



(** Case analysis on an element taken from an explicit list. *)
Ltac each_path H :=
  repeat match type of H with
         | _ \/ _ => destruct H as [H|H]
         | False => destruct H
         end;
  try subst.

(** The labels of the example directory do not end in NUL. *)
Ltac example_inputs_clean :=
  let name := fresh "name" in
  let p := fresh "p" in
  let o := fresh "o" in
  let ids := fresh "ids" in
  let Hname := fresh "Hname" in
  let Hp := fresh "Hp" in
  let Hfs := fresh "Hfs" in
  let Hids := fresh "Hids" in
  let c := fresh "c" in
  let Hc := fresh "Hc" in
  intros name p o ids Hname Hp Hfs Hids c Hc;
  vm_compute in Hname; injection Hname as <-;
  vm_compute in Hp; each_path Hp;
  vm_compute in Hfs; injection Hfs as <-;
  vm_compute in Hids; injection Hids as <-;
  vm_compute in Hc; each_path Hc; reflexivity.

(* ================================================================= *)
(** ** The order on labels *)

Section LabelOrder.

Lemma label_lt_compare (a b : string) :
  label_lt a b <-> String.compare a b = Lt.
Proof.
  unfold label_lt, String.ltb.
  destruct (String.compare a b); split; congruence.
Qed.

Lemma label_lt_trans (a b c : string) :
  label_lt a b -> label_lt b c -> label_lt a c.
Proof.
  rewrite !label_lt_compare.
  intros Hab Hbc.
  apply String_as_OT.cmp_lt in Hab, Hbc.
  apply String_as_OT.cmp_lt.
  exact (String_as_OT.lt_trans a b c Hab Hbc).
Qed.

Lemma label_lt_irrefl (a : string) : ~ label_lt a a.
Proof.
  rewrite label_lt_compare.
  intros H.
  apply String_as_OT.cmp_lt in H.
  exact (String_as_OT.lt_not_eq a a H eq_refl).
Qed.

Lemma leb_true_cases (a b : string) :
  String.leb a b = true -> a = b \/ label_lt a b.
Proof.
  unfold String.leb.
  destruct (String.compare a b) eqn:E; intros H.
  - left. now apply String.compare_eq_iff.
  - right. now apply label_lt_compare.
  - discriminate.
Qed.

Lemma leb_false_lt (a b : string) :
  String.leb a b = false -> label_lt b a.
Proof.
  unfold String.leb.
  destruct (String.compare a b) eqn:E; intros H; try discriminate.
  apply label_lt_compare.
  rewrite String.compare_antisym, E.
  reflexivity.
Qed.

Lemma label_lt_asym (a b : string) : label_lt a b -> ~ label_lt b a.
Proof.
  intros Hab Hba.
  exact (label_lt_irrefl a (label_lt_trans a b a Hab Hba)).
Qed.

End LabelOrder.

(* ================================================================= *)
(** ** [np.unique] returns the distinct labels in increasing order *)

Section Unique.

Lemma insert_In (x y : string) (l : list string) :
  In y (Np.insert x l) <-> y = x \/ In y l.
Proof.
  induction l as [|z l IH]; simpl.
  - intuition congruence.
  - destruct (String.leb x z); simpl; rewrite ?IH; intuition congruence.
Qed.

Lemma sort_In (y : string) (l : list string) :
  In y (Np.sort l) <-> In y l.
Proof.
  induction l as [|x l IH]; simpl.
  - tauto.
  - rewrite insert_In, IH. intuition congruence.
Qed.

Lemma label_le_lt_trans (a b c : string) :
  label_le a b -> label_lt b c -> label_lt a c.
Proof.
  intros [->|Hab] Hbc; eauto using label_lt_trans.
Qed.

Lemma label_lt_le_trans (a b c : string) :
  label_lt a b -> label_le b c -> label_lt a c.
Proof.
  intros Hab [<-|Hbc]; eauto using label_lt_trans.
Qed.

Lemma label_le_trans (a b c : string) :
  label_le a b -> label_le b c -> label_le a c.
Proof.
  intros [->|Hab] Hbc; [assumption|].
  right. eauto using label_lt_le_trans.
Qed.

Lemma insert_sorted (x : string) (l : list string) :
  StronglySorted label_le l -> StronglySorted label_le (Np.insert x l).
Proof.
  induction 1 as [|z l Hl IH Hz]; simpl.
  - constructor; constructor.
  - destruct (String.leb x z) eqn:E.
    + apply leb_true_cases in E.
      constructor; [constructor; assumption|].
      constructor; [exact E|].
      eapply Forall_impl; [|exact Hz].
      intros w Hw. eapply label_le_trans; [exact E|exact Hw].
    + apply leb_false_lt in E.
      constructor; [exact IH|].
      apply Forall_forall. intros w Hw.
      apply insert_In in Hw. destruct Hw as [->|Hw].
      * right. exact E.
      * rewrite Forall_forall in Hz. auto.
  Qed.

Lemma sort_sorted (l : list string) : StronglySorted label_le (Np.sort l).
Proof.
  induction l as [|x l IH]; simpl.
  - constructor.
  - apply insert_sorted, IH.
Qed.

Lemma drop_repeats_In (y : string) (l : list string) :
  In y (Np.drop_repeats l) <-> In y l.
Proof.
  induction l as [|x l IH]; [tauto|].
  destruct l as [|z l]; [tauto|].
  change (Np.drop_repeats (x :: z :: l))
    with (if String.eqb x z then Np.drop_repeats (z :: l)
          else x :: Np.drop_repeats (z :: l)).
  destruct (String.eqb_spec x z) as [->|Hne].
  - rewrite IH. simpl. tauto.
  - simpl In at 1. rewrite IH. simpl. tauto.
Qed.

Lemma drop_repeats_sorted (l : list string) :
  StronglySorted label_le l -> StronglySorted label_lt (Np.drop_repeats l).
Proof.
  induction 1 as [|x l Hl IH Hx]; [constructor|].
  destruct l as [|z l]; [repeat constructor|].
  change (Np.drop_repeats (x :: z :: l))
    with (if String.eqb x z then Np.drop_repeats (z :: l)
          else x :: Np.drop_repeats (z :: l)).
  destruct (String.eqb_spec x z) as [->|Hne]; [exact IH|].
  constructor; [exact IH|].
  apply Forall_forall. intros w Hw.
  apply (proj1 (drop_repeats_In _ _)) in Hw. simpl in Hw.
  rewrite Forall_forall in Hx.
  destruct (Hx z (or_introl eq_refl)) as [?|Hxz]; [contradiction|].
  destruct Hw as [<-|Hw]; [exact Hxz|].
  apply StronglySorted_inv in Hl. destruct Hl as [_ Hz].
  rewrite Forall_forall in Hz.
  eapply label_lt_le_trans; [exact Hxz|auto].
Qed.

Lemma unique_In (c : string) (ids : list string) :
  In c (Np.unique ids) <-> In c ids.
Proof.
  unfold Np.unique. now rewrite drop_repeats_In, sort_In.
Qed.

Lemma unique_sorted (ids : list string) :
  StronglySorted label_lt (Np.unique ids).
Proof.
  apply drop_repeats_sorted, sort_sorted.
Qed.

Lemma sorted_NoDup (u : list string) :
  StronglySorted label_lt u -> NoDup u.
Proof.
  induction 1 as [|x u Hu IH Hx]; constructor; [|exact IH].
  intros Hin. rewrite Forall_forall in Hx.
  exact (label_lt_irrefl x (Hx x Hin)).
Qed.

(** An increasing enumeration of a set of labels is unique. *)
Lemma sorted_unique (u v : list string) :
  StronglySorted label_lt u -> StronglySorted label_lt v ->
  (forall c, In c u <-> In c v) -> u = v.
Proof.
  intros Hu. revert v.
  induction Hu as [|x u Hu IH Hx]; intros v Hv Hsame.
  - destruct v as [|y v]; [reflexivity|].
    exfalso. apply (Hsame y). now left.
  - destruct Hv as [|y v Hv Hy].
    + exfalso. apply (Hsame x). now left.
    + rewrite Forall_forall in Hx, Hy.
      assert (x = y) as <-.
      { destruct (proj1 (Hsame x) (or_introl eq_refl)) as [E|Hxv]; [now symmetry|].
        destruct (proj2 (Hsame y) (or_introl eq_refl)) as [E|Hyu]; [exact E|].
        exfalso. exact (label_lt_asym _ _ (Hx _ Hyu) (Hy _ Hxv)). }
      f_equal. apply IH; [exact Hv|].
      intros c. split; intros Hc.
      * destruct (proj1 (Hsame c) (or_intror Hc)) as [<-|H]; [|exact H].
        exfalso. exact (label_lt_irrefl _ (Hx _ Hc)).
      * destruct (proj2 (Hsame c) (or_intror Hc)) as [<-|H]; [|exact H].
        exfalso. exact (label_lt_irrefl _ (Hy _ Hc)).
Qed.

Lemma unique_NoDup (ids : list string) : NoDup (Np.unique ids).
Proof. apply sorted_NoDup, unique_sorted. Qed.

Lemma unique_length (ids : list string) :
  List.length (Np.unique ids) = List.length (distinct ids).
Proof.
  apply Permutation_length, NoDup_Permutation.
  - apply unique_NoDup.
  - apply NoDup_nodup.
  - intros c. unfold distinct. now rewrite unique_In, nodup_In.
Qed.

End Unique.

(* ================================================================= *)
(** ** Dictionaries *)

Section Dict.

Context {V : Type}.
Implicit Types (d : dict V) (k : string) (v : V).

Lemma dict_get_None d k : dict_get d k = None <-> ~ In k (keys d).
Proof.
  induction d as [|[k' v'] d IH]; simpl.
  - tauto.
  - destruct (String.eqb_spec k' k) as [->|Hne].
    + split; [discriminate|]. intros H. exfalso. apply H. now left.
    + rewrite IH. tauto.
Qed.

Lemma dict_set_fresh d k v :
  ~ In k (keys d) -> dict_set d k v = d ++ [(k, v)].
Proof.
  induction d as [|[k' v'] d IH]; simpl; intros Hk; [reflexivity|].
  destruct (String.eqb_spec k' k) as [->|Hne].
  - exfalso. apply Hk. now left.
  - rewrite IH; [reflexivity|]. tauto.
Qed.

Lemma keys_app d1 d2 : keys (d1 ++ d2) = keys d1 ++ keys d2.
Proof. apply map_app. Qed.

Lemma dict_get_In d k v :
  NoDup (keys d) -> (dict_get d k = Some v <-> In (k, v) d).
Proof.
  induction d as [|[k' v'] d IH]; simpl; intros Hnd.
  - split; [discriminate|tauto].
  - inversion Hnd as [|? ? Hk' Hd]; subst.
    destruct (String.eqb_spec k' k) as [->|Hne].
    + split.
      * intros [= ->]. now left.
      * intros [[= ->]|Hin]; [reflexivity|].
        exfalso. apply Hk'.
        change k with (fst (k, v)). now apply in_map.
    + rewrite (IH Hd). split; [tauto|].
      intros [[= -> _]|Hin]; [contradiction|exact Hin].
Qed.

End Dict.

Lemma keys_map_pair {V : Type} (f : string -> V) (u : list string) :
  keys (map (fun c => (c, f c)) u) = u.
Proof.
  unfold keys. rewrite map_map. simpl. apply map_id.
Qed.

Lemma keys_combine_seq (u : list string) (n : nat) :
  keys (combine u (seq n (List.length u))) = u.
Proof.
  revert n. induction u as [|c u IH]; intros n; simpl; [reflexivity|].
  f_equal. apply IH.
Qed.

Lemma values_combine_seq (u : list string) (n : nat) :
  values (combine u (seq n (List.length u))) = seq n (List.length u).
Proof.
  revert n. induction u as [|c u IH]; intros n; simpl; [reflexivity|].
  f_equal. apply IH.
Qed.

(** Line 51: on distinct labels the comprehension pairs each label with its
    position. *)
Lemma chain_to_num_fold (u : list string) (n : nat) (d : dict nat) :
  NoDup (keys d ++ u) ->
  fold_left (fun d ic => dict_set d (snd ic) (fst ic)) (enumerate_from n u) d
  = d ++ combine u (seq n (List.length u)).
Proof.
  revert n d. induction u as [|c u IH]; intros n d Hnd; simpl.
  - now rewrite app_nil_r.
  - rewrite dict_set_fresh.
    + rewrite IH.
      * now rewrite <- app_assoc.
      * rewrite keys_app. simpl. now rewrite <- app_assoc.
    + apply NoDup_remove_2 in Hnd. intros Hin. apply Hnd.
      apply in_or_app. now left.
Qed.

Lemma chain_to_num_of_unique (ids : list string) :
  chain_to_num_of (Np.unique ids)
  = combine (Np.unique ids) (seq 0 (List.length (Np.unique ids))).
Proof.
  unfold chain_to_num_of, enumerate.
  rewrite chain_to_num_fold; [reflexivity|].
  simpl. apply unique_NoDup.
Qed.

Lemma dict_get_combine_seq (u : list string) (n i : nat) (c : string) :
  NoDup u ->
  (dict_get (combine u (seq n (List.length u))) c = Some i
   <-> n <= i /\ nth_error u (i - n) = Some c).
Proof.
  intros Hnd. revert n.
  induction Hnd as [|x u Hx Hnd IH]; intros n; simpl.
  - split; [discriminate|].
    intros [_ H]. destruct (i - n); discriminate.
  - destruct (String.eqb_spec x c) as [->|Hne].
    + split.
      * intros [= <-]. rewrite Nat.sub_diag. auto.
      * intros [Hle Hnth].
        destruct (i - n) as [|k] eqn:E; [f_equal; lia|].
        simpl in Hnth. apply nth_error_In in Hnth. contradiction.
    + rewrite IH. split.
      * intros [Hle Hnth].
        replace (i - n) with (S (i - S n)) by lia. split; [lia|exact Hnth].
      * intros [Hle Hnth].
        destruct (i - n) as [|k] eqn:E; simpl in Hnth; [congruence|].
        replace (i - S n) with k by lia. split; [lia|exact Hnth].
Qed.

(* ================================================================= *)
(** ** Occurrence positions *)

Section Occurrences.

Implicit Types (ids : list string) (c : string).

Lemma first_occurrence_unique ids c s1 s2 :
  first_occurrence ids c s1 -> first_occurrence ids c s2 -> s1 = s2.
Proof.
  intros [H1 L1] [H2 L2].
  destruct (Nat.lt_trichotomy s1 s2) as [Hlt|[Heq|Hgt]]; [|exact Heq|].
  - exfalso. exact (L2 s1 Hlt H1).
  - exfalso. exact (L1 s2 Hgt H2).
Qed.

Lemma last_occurrence_unique ids c e1 e2 :
  last_occurrence ids c e1 -> last_occurrence ids c e2 -> e1 = e2.
Proof.
  intros [H1 L1] [H2 L2].
  destruct (Nat.lt_trichotomy e1 e2) as [Hlt|[Heq|Hgt]]; [|exact Heq|].
  - exfalso. exact (L1 e2 Hlt H2).
  - exfalso. exact (L2 e1 Hgt H1).
Qed.

Lemma first_le_last ids c s e :
  first_occurrence ids c s -> last_occurrence ids c e -> s <= e.
Proof.
  intros [H1 L1] [H2 L2].
  destruct (Nat.le_gt_cases s e) as [Hle|Hgt]; [exact Hle|].
  exfalso. exact (L1 e Hgt H2).
Qed.

Lemma where_eq_from_nil n ids c :
  ~ In c ids -> Np.where_eq_from n ids c = [].
Proof.
  revert n. induction ids as [|x ids IH]; intros n Hc; simpl; [reflexivity|].
  destruct (String.eqb_spec x c) as [->|Hne].
  - exfalso. apply Hc. now left.
  - apply IH. intros H. apply Hc. now right.
Qed.

Lemma where_eq_from_first ids c :
  In c ids ->
  exists s, first_occurrence ids c s /\
            forall n, hd_error (Np.where_eq_from n ids c) = Some (n + s).
Proof.
  induction ids as [|x ids IH]; intros Hc; [destruct Hc|].
  destruct (String.eqb_spec x c) as [->|Hne].
  - exists 0. split.
    + split; [reflexivity|]. intros j Hj. lia.
    + intros n. simpl. rewrite String.eqb_refl. simpl. f_equal. lia.
  - destruct Hc as [Hc|Hc]; [contradiction|].
    destruct (IH Hc) as (s & [Hs Hmin] & Hhd).
    exists (S s). split.
    + split; [exact Hs|].
      intros [|j] Hj; simpl; [congruence|]. apply Hmin. lia.
    + intros n. simpl.
      destruct (String.eqb_spec x c); [contradiction|].
      rewrite Hhd. f_equal. lia.
Qed.

Lemma where_eq_from_last ids c :
  In c ids ->
  exists e, last_occurrence ids c e /\
            forall n, Np.where_eq_from n ids c <> [] /\
                      last (Np.where_eq_from n ids c) 0 = n + e.
Proof.
  induction ids as [|x ids IH]; intros Hc; [destruct Hc|].
  destruct (in_dec string_dec c ids) as [Hin|Hnin].
  - destruct (IH Hin) as (e & [He Hmax] & Hlast).
    exists (S e). split.
    + split; [exact He|].
      intros [|j] Hj; [lia|]. simpl. apply Hmax. lia.
    + intros n. destruct (Hlast (S n)) as [Hne Hl]. simpl.
      destruct (String.eqb x c).
      * split; [discriminate|].
        destruct (Np.where_eq_from (S n) ids c) eqn:E; [contradiction|].
        rewrite <- E in *. change (last (n :: Np.where_eq_from (S n) ids c) 0)
          with (match Np.where_eq_from (S n) ids c with
                | [] => n
                | _ :: _ => last (Np.where_eq_from (S n) ids c) 0
                end).
        rewrite E at 1. rewrite Hl. lia.
      * split; [exact Hne|]. rewrite Hl. lia.
  - destruct Hc as [->|Hc]; [|contradiction].
    exists 0. split.
    + split; [reflexivity|].
      intros [|j] Hj; [lia|]. simpl. intros H.
      apply nth_error_In in H. contradiction.
    + intros n. simpl. rewrite String.eqb_refl.
      rewrite where_eq_from_nil by exact Hnin.
      split; [discriminate|]. simpl. lia.
Qed.

Lemma first_occurrence_hd ids c :
  In c ids -> first_occurrence ids c (hd 0 (Np.where_eq ids c)).
Proof.
  intros Hc. destruct (where_eq_from_first ids c Hc) as (s & Hs & Hhd).
  specialize (Hhd 0). unfold Np.where_eq.
  destruct (Np.where_eq_from 0 ids c); simpl in *; [discriminate|].
  injection Hhd as ->. exact Hs.
Qed.

Lemma last_occurrence_last ids c :
  In c ids -> last_occurrence ids c (last (Np.where_eq ids c) 0).
Proof.
  intros Hc. destruct (where_eq_from_last ids c Hc) as (e & He & Hlast).
  destruct (Hlast 0) as [_ Hl]. unfold Np.where_eq.
  rewrite Hl. exact He.
Qed.

Lemma where_eq_nonempty ids c : In c ids -> Np.where_eq ids c <> [].
Proof.
  intros Hc. destruct (where_eq_from_last ids c Hc) as (e & _ & Hlast).
  exact (proj1 (Hlast 0)).
Qed.

Lemma occurrence_In ids c i : nth_error ids i = Some c -> In c ids.
Proof. apply nth_error_In. Qed.

End Occurrences.

Lemma list_getitem_0 {A : Type} (l : list A) (d : A) :
  l <> [] -> list_getitem l 0 = Ok (hd d l).
Proof. destruct l; [contradiction|reflexivity]. Qed.

Lemma list_getitem_last_ok {A : Type} (l : list A) (d : A) :
  l <> [] -> list_getitem_last l = Ok (last l d).
Proof.
  induction l as [|x l IH]; [contradiction|]. intros _.
  destruct l as [|y l]; [reflexivity|].
  change (list_getitem_last (x :: y :: l)) with (list_getitem_last (y :: l)).
  change (last (x :: y :: l) d) with (last (y :: l) d).
  apply IH. discriminate.
Qed.

(* ================================================================= *)
(** ** The segmenter in closed form *)

Section Segmenter.

Variable ids : list string.

Let first_of (c : string) : nat := hd 0 (Np.where_eq ids c).
Let last_of (c : string) : nat := last (Np.where_eq ids c) 0.

(** Lines 60-63 on distinct labels that occur in the input. *)
Lemma start_end_fold (u : list string) (ds de : dict nat) :
  (forall c, In c u -> In c ids) ->
  NoDup (keys ds ++ u) -> keys de = keys ds ->
  foldM (start_end_step ids) u (ds, de)
  = Ok (ds ++ map (fun c => (c, first_of c)) u,
        de ++ map (fun c => (c, last_of c)) u).
Proof.
  revert ds de. induction u as [|c u IH]; intros ds de Hin Hnd Hkeys; simpl.
  - now rewrite !app_nil_r.
  - assert (Hc : In c ids) by (apply Hin; now left).
    assert (Hfresh : ~ In c (keys ds)).
    { apply NoDup_remove_2 in Hnd. intros H. apply Hnd.
      apply in_or_app. now left. }
    unfold start_end_step at 1. simpl.
    rewrite (list_getitem_0 _ 0) by now apply where_eq_nonempty.
    rewrite (list_getitem_last_ok _ 0) by now apply where_eq_nonempty.
    simpl.
    rewrite !dict_set_fresh by (rewrite ?Hkeys; exact Hfresh).
    rewrite IH.
    + now rewrite <- !app_assoc.
    + intros c' Hc'. apply Hin. now right.
    + rewrite keys_app. simpl. now rewrite <- app_assoc.
    + now rewrite !keys_app, Hkeys.
Qed.

(** Line 54 when every label is a key. *)
Lemma codes_mapM (d : dict nat) (l : list string) :
  (forall c, In c l -> dict_get d c <> None) ->
  exists row, mapM (fun char => getitem d char) l = Ok row /\
              Forall2 (fun c k => dict_get d c = Some k) l row.
Proof.
  induction l as [|c l IH]; intros Hall; simpl.
  - exists []. split; [reflexivity|constructor].
  - destruct IH as (row & Hrow & HF).
    { intros c' Hc'. apply Hall. now right. }
    unfold getitem at 1.
    destruct (dict_get d c) as [k|] eqn:E.
    + exists (k :: row). simpl. rewrite Hrow. simpl.
      split; [reflexivity|]. constructor; assumption.
    + exfalso. apply (Hall c); [now left|exact E].
Qed.

Lemma chain_to_num_total (c : string) :
  In c ids -> dict_get (chain_to_num_of (Np.unique ids)) c <> None.
Proof.
  intros Hc. rewrite dict_get_None, chain_to_num_of_unique, keys_combine_seq.
  intros H. apply H. now apply unique_In.
Qed.

(** The segmenter on an input of which [ids] is the array. *)
Lemma process_token_chains_of_array (raw : list string) :
  Np.array raw = ids ->
  exists row,
    process_token_chains raw
    = Ok (combine (Np.unique ids) (seq 0 (List.length (Np.unique ids))),
          map (fun c => (c, first_of c)) (Np.unique ids),
          map (fun c => (c, last_of c)) (Np.unique ids),
          [row])
    /\ Forall2 (fun c k => nth_error (Np.unique ids) k = Some c) ids row.
Proof.
  intros Harray.
  destruct (codes_mapM (chain_to_num_of (Np.unique ids)) ids chain_to_num_total)
    as (row & Hrow & HF).
  exists row. split.
  - unfold process_token_chains. rewrite Harray. cbv zeta. rewrite Hrow. simpl.
    rewrite start_end_fold; simpl.
    + now rewrite chain_to_num_of_unique.
    + intros c. apply unique_In.
    + apply unique_NoDup.
    + reflexivity.
  - eapply Forall2_impl; [|exact HF].
    intros c k Hk. rewrite chain_to_num_of_unique in Hk.
    apply dict_get_combine_seq in Hk; [|apply unique_NoDup].
    destruct Hk as [_ Hk]. now rewrite Nat.sub_0_r in Hk.
Qed.

Lemma starts_lookup (c : string) (s : nat) :
  dict_get (map (fun c => (c, first_of c)) (Np.unique ids)) c = Some s
  <-> first_occurrence ids c s.
Proof.
  rewrite dict_get_In by (rewrite keys_map_pair; apply unique_NoDup).
  rewrite in_map_iff. split.
  - intros (c' & [= -> <-] & Hc'). apply first_occurrence_hd.
    now apply unique_In.
  - intros Hs. exists c. split.
    + f_equal. eapply first_occurrence_unique; [|exact Hs].
      apply first_occurrence_hd. exact (occurrence_In _ _ _ (proj1 Hs)).
    + apply unique_In. exact (occurrence_In _ _ _ (proj1 Hs)).
Qed.

Lemma ends_lookup (c : string) (e : nat) :
  dict_get (map (fun c => (c, last_of c)) (Np.unique ids)) c = Some e
  <-> last_occurrence ids c e.
Proof.
  rewrite dict_get_In by (rewrite keys_map_pair; apply unique_NoDup).
  rewrite in_map_iff. split.
  - intros (c' & [= -> <-] & Hc'). apply last_occurrence_last.
    now apply unique_In.
  - intros He. exists c. split.
    + f_equal. eapply last_occurrence_unique; [|exact He].
      apply last_occurrence_last. exact (occurrence_In _ _ _ (proj1 He)).
    + apply unique_In. exact (occurrence_In _ _ _ (proj1 He)).
Qed.

End Segmenter.

(** Labels that do not end in NUL are kept by the array. *)
Lemma rstrip_nul_clean (s : string) :
  ends_with_nul s = false -> Np.rstrip_nul s = s.
Proof.
  induction s as [|c s IH]; [reflexivity|].
  destruct s as [|c' s].
  - simpl. intros ->. reflexivity.
  - intros Hs. change (ends_with_nul (String c' s) = false) in Hs.
    change (Np.rstrip_nul (String c (String c' s)))
      with (match Np.rstrip_nul (String c' s) with
            | EmptyString =>
                if Ascii.eqb c Ascii.zero then EmptyString else String c EmptyString
            | String c'' r => String c (String c'' r)
            end).
    rewrite (IH Hs). reflexivity.
Qed.

Lemma array_clean (ids : list string) : clean_labels ids -> Np.array ids = ids.
Proof.
  unfold Np.array. induction ids as [|c ids IH]; intros Hclean; [reflexivity|].
  simpl. rewrite rstrip_nul_clean by (apply Hclean; now left).
  f_equal. apply IH. intros c' Hc'. apply Hclean. now right.
Qed.

(** A label that ends in NUL is read back from the array without it: the
    label ["A"] followed by NUL and the label ["A"] are one chain, whose first
    position is 0 and whose last position is 1. *)
Lemma process_token_chains_trailing_nul :
  exists token_chain_nums,
    process_token_chains [String "A" (String Ascii.zero EmptyString); "A"; "B"]
    = Ok ([("A", 0); ("B", 1)], [("A", 0); ("B", 2)], [("A", 1); ("B", 2)],
          token_chain_nums)
    /\ token_chain_nums = [[0; 0; 1]].
Proof.
  eexists. split; reflexivity.
Qed.

Lemma process_token_chains_closed (ids : list string) :
  exists row,
    process_token_chains ids
    = Ok (combine (Np.unique (Np.array ids))
            (seq 0 (List.length (Np.unique (Np.array ids)))),
          map (fun c => (c, hd 0 (Np.where_eq (Np.array ids) c)))
            (Np.unique (Np.array ids)),
          map (fun c => (c, last (Np.where_eq (Np.array ids) c) 0))
            (Np.unique (Np.array ids)),
          [row])
    /\ Forall2 (fun c k => nth_error (Np.unique (Np.array ids)) k = Some c)
         (Np.array ids) row.
Proof.
  exact (process_token_chains_of_array (Np.array ids) ids eq_refl).
Qed.

(** What the segmenter returns, for every input: it never raises, the three
    dictionaries carry the distinct labels of the array in increasing order,
    the codes are the positions in that order, and the recorded positions
    are the first and the last occurrence in the array. *)
Lemma process_token_chains_array_spec (ids : list string) :
  exists chain_to_num chain_to_start_index chain_to_end_index row,
    process_token_chains ids
    = Ok (chain_to_num, chain_to_start_index, chain_to_end_index, [row])
    /\ keys chain_to_num = Np.unique (Np.array ids)
    /\ keys chain_to_start_index = Np.unique (Np.array ids)
    /\ keys chain_to_end_index = Np.unique (Np.array ids)
    /\ values chain_to_num = seq 0 (List.length (Np.unique (Np.array ids)))
    /\ (forall c i, dict_get chain_to_num c = Some i
                    <-> nth_error (Np.unique (Np.array ids)) i = Some c)
    /\ (forall c s, dict_get chain_to_start_index c = Some s
                    <-> first_occurrence (Np.array ids) c s)
    /\ (forall c e, dict_get chain_to_end_index c = Some e
                    <-> last_occurrence (Np.array ids) c e)
    /\ Forall2 (fun c k => nth_error (Np.unique (Np.array ids)) k = Some c)
         (Np.array ids) row.
Proof.
  destruct (process_token_chains_closed ids) as (row & Heq & HF).
  eexists _, _, _, row. split; [exact Heq|].
  rewrite keys_combine_seq, values_combine_seq, !keys_map_pair.
  do 4 (split; [reflexivity|]).
  split; [|split; [|split; [|exact HF]]].
  - intros c i. rewrite dict_get_combine_seq by apply unique_NoDup.
    rewrite Nat.sub_0_r. split; [tauto|]. intros H. split; [lia|exact H].
  - intros c s. apply starts_lookup.
  - intros c e. apply ends_lookup.
Qed.

(** The same for labels that do not end in NUL, on the input itself. *)
Lemma process_token_chains_spec (ids : list string) :
  clean_labels ids ->
  exists chain_to_num chain_to_start_index chain_to_end_index row,
    process_token_chains ids
    = Ok (chain_to_num, chain_to_start_index, chain_to_end_index, [row])
    /\ keys chain_to_num = Np.unique ids
    /\ keys chain_to_start_index = Np.unique ids
    /\ keys chain_to_end_index = Np.unique ids
    /\ values chain_to_num = seq 0 (List.length (Np.unique ids))
    /\ (forall c i, dict_get chain_to_num c = Some i
                    <-> nth_error (Np.unique ids) i = Some c)
    /\ (forall c s, dict_get chain_to_start_index c = Some s
                    <-> first_occurrence ids c s)
    /\ (forall c e, dict_get chain_to_end_index c = Some e
                    <-> last_occurrence ids c e)
    /\ Forall2 (fun c k => nth_error (Np.unique ids) k = Some c) ids row.
Proof.
  intros Hclean. pose proof (process_token_chains_array_spec ids) as H.
  rewrite (array_clean ids Hclean) in H. exact H.
Qed.

Lemma Forall2_nth_error {A B : Type} (R : A -> B -> Prop) (l : list A) (r : list B) :
  Forall2 R l r ->
  forall i a, nth_error l i = Some a -> exists b, nth_error r i = Some b /\ R a b.
Proof.
  induction 1 as [|x y l r Hxy HF IH]; intros [|i] a Hi; simpl in *; try discriminate.
  - injection Hi as <-. eauto.
  - eauto.
Qed.

Lemma count_occ_two (ids : list string) (c : string) (i j : nat) :
  nth_error ids i = Some c -> nth_error ids j = Some c -> i < j ->
  2 <= count_occ string_dec ids c.
Proof.
  revert i j. induction ids as [|x ids IH]; intros i j Hi Hj Hlt.
  - destruct i; discriminate.
  - destruct j as [|j]; [lia|]. simpl in Hj.
    destruct i as [|i]; simpl in Hi.
    + injection Hi as ->. rewrite count_occ_cons_eq by reflexivity.
      apply nth_error_In in Hj.
      pose proof (proj1 (count_occ_In string_dec ids c) Hj). lia.
    + assert (2 <= count_occ string_dec ids c) by (apply (IH i j Hi Hj); lia).
      simpl. destruct (string_dec x c); lia.
Qed.

(* ================================================================= *)
(** ** The chain segmenter: claims *)

(** C2: for every label sequence whose labels do not end in NUL,
    [process_token_chains] gives each distinct label the 0-based position it
    has in the increasing (lexicographic) enumeration [u] of the distinct
    labels, and returns a coded array of shape (1, N) whose entry at
    position [i] is the code of the label at position [i] of the input. *)
Theorem process_token_chains_rank_codes (ids u : list string) :
  clean_labels ids ->
  StronglySorted label_lt u ->
  (forall c, In c u <-> In c ids) ->
  exists chain_to_num chain_to_start_index chain_to_end_index row,
    process_token_chains ids
    = Ok (chain_to_num, chain_to_start_index, chain_to_end_index, [row])
    /\ (forall c i, dict_get chain_to_num c = Some i <-> nth_error u i = Some c)
    /\ Np.shape [row] = (1, List.length ids)
    /\ (forall i c, nth_error ids i = Some c ->
          exists k, nth_error row i = Some k /\ dict_get chain_to_num c = Some k).
Proof.
  intros Hclean Hsorted Hsame.
  assert (Hu : u = Np.unique ids).
  { apply sorted_unique; [exact Hsorted|apply unique_sorted|].
    intros c. now rewrite Hsame, unique_In. }
  subst u.
  destruct (process_token_chains_spec ids Hclean)
    as (num & starts & ends & row & Heq & _ & _ & _ & _ & Hnum & _ & _ & HF).
  exists num, starts, ends, row.
  split; [exact Heq|]. split; [exact Hnum|]. split.
  - unfold Np.shape. f_equal. symmetry. exact (Forall2_length HF).
  - intros i c Hi.
    destruct (Forall2_nth_error _ _ _ HF i c Hi) as (k & Hk & Hc).
    exists k. split; [exact Hk|]. now apply Hnum.
Qed.

Lemma process_token_chains_rank_codes_witness :
  exists chain_to_num chain_to_start_index chain_to_end_index row,
    process_token_chains ["B"; "A"; "B"]
    = Ok (chain_to_num, chain_to_start_index, chain_to_end_index, [row])
    /\ (forall c i, dict_get chain_to_num c = Some i
                    <-> nth_error ["A"; "B"] i = Some c)
    /\ Np.shape [row] = (1, 3)
    /\ (forall i c, nth_error ["B"; "A"; "B"] i = Some c ->
          exists k, nth_error row i = Some k /\ dict_get chain_to_num c = Some k).
Proof.
  apply (process_token_chains_rank_codes ["B"; "A"; "B"] ["A"; "B"]).
  - intros c [<-|[<-|[<-|[]]]]; reflexivity.
  - repeat constructor.
  - intros c. simpl. tauto.
Defined.

(** C3: for every label sequence whose labels do not end in NUL, the three
    dictionaries have as many keys as the input has distinct labels; each
    label's recorded first position is the least index at which it occurs
    and its last position the greatest, so first <= last, with equality for
    a label that occurs once; and for "ABABAB" the result is first 0, last 4
    for "A" and first 1, last 5 for "B". *)
Theorem process_token_chains_first_last (ids : list string) :
  clean_labels ids ->
  (exists chain_to_num chain_to_start_index chain_to_end_index token_chain_nums,
     process_token_chains ids
     = Ok (chain_to_num, chain_to_start_index, chain_to_end_index, token_chain_nums)
     /\ List.length (keys chain_to_num) = List.length (distinct ids)
     /\ List.length (keys chain_to_start_index) = List.length (distinct ids)
     /\ List.length (keys chain_to_end_index) = List.length (distinct ids)
     /\ (forall c, In c ids ->
           exists s e,
             dict_get chain_to_start_index c = Some s
             /\ dict_get chain_to_end_index c = Some e
             /\ first_occurrence ids c s
             /\ last_occurrence ids c e
             /\ s <= e
             /\ (count_occ string_dec ids c = 1 -> s = e)))
  /\ exists chain_to_num token_chain_nums,
       process_token_chains (chars "ABABAB")
       = Ok (chain_to_num, [("A", 0); ("B", 1)], [("A", 4); ("B", 5)],
             token_chain_nums).
Proof.
  intros Hclean. split.
  - destruct (process_token_chains_spec ids Hclean)
      as (num & starts & ends & row & Heq & Kn & Ks & Ke & _ & _ & Hs & He & _).
    exists num, starts, ends, [row].
    split; [exact Heq|].
    rewrite Kn, Ks, Ke, unique_length.
    do 3 (split; [reflexivity|]).
    intros c Hc.
    pose proof (first_occurrence_hd ids c Hc) as Hfirst.
    pose proof (last_occurrence_last ids c Hc) as Hlast.
    exists (hd 0 (Np.where_eq ids c)), (last (Np.where_eq ids c) 0).
    split; [now apply Hs|]. split; [now apply He|].
    split; [exact Hfirst|]. split; [exact Hlast|].
    pose proof (first_le_last _ _ _ _ Hfirst Hlast) as Hle.
    split; [exact Hle|].
    intros Hone.
    destruct (Nat.eq_dec (hd 0 (Np.where_eq ids c)) (last (Np.where_eq ids c) 0))
      as [E|Hne]; [exact E|].
    pose proof (count_occ_two ids c _ _ (proj1 Hfirst) (proj1 Hlast)) as Htwo.
    lia.
  - eexists _, _. reflexivity.
Qed.

Lemma process_token_chains_first_last_witness :
  (exists chain_to_num chain_to_start_index chain_to_end_index token_chain_nums,
     process_token_chains (chars "ABABAB")
     = Ok (chain_to_num, chain_to_start_index, chain_to_end_index, token_chain_nums)
     /\ List.length (keys chain_to_num) = List.length (distinct (chars "ABABAB"))
     /\ List.length (keys chain_to_start_index) = List.length (distinct (chars "ABABAB"))
     /\ List.length (keys chain_to_end_index) = List.length (distinct (chars "ABABAB"))
     /\ (forall c, In c (chars "ABABAB") ->
           exists s e,
             dict_get chain_to_start_index c = Some s
             /\ dict_get chain_to_end_index c = Some e
             /\ first_occurrence (chars "ABABAB") c s
             /\ last_occurrence (chars "ABABAB") c e
             /\ s <= e
             /\ (count_occ string_dec (chars "ABABAB") c = 1 -> s = e)))
  /\ exists chain_to_num token_chain_nums,
       process_token_chains (chars "ABABAB")
       = Ok (chain_to_num, [("A", 0); ("B", 1)], [("A", 4); ("B", 5)],
             token_chain_nums).
Proof.
  apply (process_token_chains_first_last (chars "ABABAB")).
  intros c Hc. vm_compute in Hc. each_path Hc; reflexivity.
Defined.

(** C6: on the empty label sequence [process_token_chains] returns three
    empty dictionaries and a coded array of shape (1, 0), and does not
    raise. *)
Theorem process_token_chains_empty :
  exists token_chain_nums : list (list nat),
    process_token_chains [] = Ok ([], [], [], token_chain_nums)
    /\ Np.shape token_chain_nums = (1, 0).
Proof.
  exists [[]]. split; reflexivity.
Qed.

(** C9: for every label sequence the lookups and indexings of
    [process_token_chains] succeed: every element of the sequence is a key
    of [chain_to_num], the occurrence array of every unique label is
    non-empty, so that [indices[0]] and [indices[-1]] are in bounds, and the
    function returns. *)
Theorem process_token_chains_total (ids : list string) :
  (forall c, In c ids ->
     exists k, getitem (chain_to_num_of (Np.unique ids)) c = Ok k)
  /\ (forall c, In c (Np.unique ids) ->
        Np.where_eq ids c <> []
        /\ exists s e, list_getitem (Np.where_eq ids c) 0 = Ok s
                       /\ list_getitem_last (Np.where_eq ids c) = Ok e)
  /\ exists seg, process_token_chains ids = Ok seg.
Proof.
  split; [|split].
  - intros c Hc. unfold getitem.
    destruct (dict_get (chain_to_num_of (Np.unique ids)) c) as [k|] eqn:E.
    + now exists k.
    + exfalso. exact (chain_to_num_total ids c Hc E).
  - intros c Hc. apply (proj1 (unique_In c ids)) in Hc.
    pose proof (where_eq_nonempty ids c Hc) as Hne.
    split; [exact Hne|].
    exists (hd 0 (Np.where_eq ids c)), (last (Np.where_eq ids c) 0).
    split; [now apply list_getitem_0|now apply list_getitem_last_ok].
  - destruct (process_token_chains_closed ids) as (row & Heq & _).
    eexists. exact Heq.
Qed.

(** C10: for every label sequence whose labels do not end in NUL, the three
    dictionaries have the same keys, the distinct labels of the input, and
    the values of [chain_to_num] are exactly 0, ..., k-1, each once, for k
    the number of distinct labels. *)
Theorem process_token_chains_keys (ids : list string) :
  clean_labels ids ->
  exists chain_to_num chain_to_start_index chain_to_end_index token_chain_nums,
    process_token_chains ids
    = Ok (chain_to_num, chain_to_start_index, chain_to_end_index, token_chain_nums)
    /\ keys chain_to_num = keys chain_to_start_index
    /\ keys chain_to_start_index = keys chain_to_end_index
    /\ NoDup (keys chain_to_num)
    /\ (forall c, In c (keys chain_to_num) <-> In c ids)
    /\ List.length (keys chain_to_num) = List.length (distinct ids)
    /\ NoDup (values chain_to_num)
    /\ (forall n, In n (values chain_to_num) <-> n < List.length (distinct ids)).
Proof.
  intros Hclean.
  destruct (process_token_chains_spec ids Hclean)
    as (num & starts & ends & row & Heq & Kn & Ks & Ke & Vn & _).
  exists num, starts, ends, [row].
  split; [exact Heq|].
  rewrite Kn, Ks, Ke, Vn, unique_length.
  do 2 (split; [reflexivity|]).
  split; [apply unique_NoDup|].
  split; [intros c; apply unique_In|].
  split; [reflexivity|].
  split; [apply seq_NoDup|].
  intros n. rewrite in_seq. lia.
Qed.

Lemma process_token_chains_keys_witness :
  exists chain_to_num chain_to_start_index chain_to_end_index token_chain_nums,
    process_token_chains ["B"; "A"; "B"]
    = Ok (chain_to_num, chain_to_start_index, chain_to_end_index, token_chain_nums)
    /\ keys chain_to_num = keys chain_to_start_index
    /\ keys chain_to_start_index = keys chain_to_end_index
    /\ NoDup (keys chain_to_num)
    /\ (forall c, In c (keys chain_to_num) <-> In c ["B"; "A"; "B"])
    /\ List.length (keys chain_to_num) = List.length (distinct ["B"; "A"; "B"])
    /\ NoDup (values chain_to_num)
    /\ (forall n, In n (values chain_to_num)
                  <-> n < List.length (distinct ["B"; "A"; "B"])).
Proof.
  apply (process_token_chains_keys ["B"; "A"; "B"]).
  intros c Hc. vm_compute in Hc. each_path Hc; reflexivity.
Defined.

(* ================================================================= *)
(** ** Loading the inputs *)

Section Loading.

Variable fs : filesystem.

(** The file at [p] is there and parses to [j]. *)
Let loaded (p : string) (j : Json.json) : Prop := fs p = Some (Valid j).

Lemma json_load_open_eq (p : string) (tr : list event) :
  json_load_open fs p tr
  = (tr ++ [Open p],
     match fs p with
     | None => Raise (FileNotFoundError p)
     | Some Malformed => Raise (JSONDecodeError p)
     | Some (Valid j) => Ok j
     end).
Proof.
  unfold json_load_open, IO.bind, IO.emit, IO.lift, IO.ret.
  destruct (fs p) as [[|j]|]; reflexivity.
Qed.

Lemma load_all_ok (paths : list string) (js : list Json.json) (tr : list event) :
  Forall2 loaded paths js ->
  IO.mapM (json_load_open fs) paths tr = (tr ++ map Open paths, Ok js).
Proof.
  intros HF. revert tr.
  induction HF as [|p j paths js Hp HF IH]; intros tr; simpl.
  - unfold IO.ret. now rewrite app_nil_r.
  - unfold IO.bind at 1. rewrite json_load_open_eq, Hp.
    unfold IO.bind. rewrite IH. unfold IO.ret.
    now rewrite <- app_assoc.
Qed.

(** Either every file loads, or loading stops at the first one that does
    not, with an error that is not [SystemExit]. *)
Lemma load_all_cases (paths : list string) (tr : list event) :
  (exists js, Forall2 loaded paths js)
  \/ (exists k e,
        IO.mapM (json_load_open fs) paths tr
        = (tr ++ map Open (firstn k paths), Raise e)
        /\ exit_status (@Raise unit e) = 1%Z
        /\ 0 < k).
Proof.
  revert tr. induction paths as [|p paths IH]; intros tr.
  - left. exists []. constructor.
  - destruct (fs p) as [[|j]|] eqn:Hp.
    + right. exists 1, (JSONDecodeError p). simpl.
      unfold IO.bind. rewrite json_load_open_eq, Hp.
      split; [reflexivity|split; [reflexivity|lia]].
    + destruct (IH (tr ++ [Open p])) as [(js & HF)|(k & e & Hk & He & _)].
      * left. exists (j :: js). constructor; assumption.
      * right. exists (S k), e. simpl.
        unfold IO.bind at 1. rewrite json_load_open_eq, Hp.
        unfold IO.bind. rewrite Hk.
        rewrite <- app_assoc. split; [reflexivity|split; [exact He|lia]].
    + right. exists 1, (FileNotFoundError p). simpl.
      unfold IO.bind. rewrite json_load_open_eq, Hp.
      split; [reflexivity|split; [reflexivity|lia]].
Qed.

Lemma loaded_all_present (paths : list string) (js : list Json.json) (p : string) :
  Forall2 loaded paths js -> In p paths -> exists j, fs p = Some (Valid j).
Proof.
  induction 1 as [|q j paths js Hq HF IH]; intros Hin; [destruct Hin|].
  destruct Hin as [<-|Hin]; [now exists j|auto].
Qed.

End Loading.

(* ================================================================= *)
(** ** The loop over the models *)

Section Loop.

Variables (json_data_full json_data_confidence : list Json.json).
Variable alphafold_prediction_name : string.

Let body (model_num : nat) : IO.t unit :=
  (fig <- IO.lift (compose json_data_full json_data_confidence model_num) ;;
   IO.emit (Savefig (figure_name alphafold_prediction_name model_num)
              300 "tight" false fig))%io.

Lemma body_eq (model_num : nat) (tr : list event) :
  body model_num tr
  = match compose json_data_full json_data_confidence model_num with
    | Ok fig =>
        (tr ++ [Savefig (figure_name alphafold_prediction_name model_num)
                  300 "tight" false fig], Ok tt)
    | Raise e => (tr, Raise e)
    end.
Proof.
  unfold body, IO.bind, IO.lift, IO.emit.
  destruct (compose json_data_full json_data_confidence model_num); reflexivity.
Qed.

(** Every event the loop adds is the figure composed for one of the
    models. *)
Lemma loop_events (models : list nat) (tr : list event) (ev : event) :
  In ev (fst (IO.for_each models body tr)) ->
  In ev tr
  \/ exists model_num fig,
       In model_num models
       /\ compose json_data_full json_data_confidence model_num = Ok fig
       /\ ev = Savefig (figure_name alphafold_prediction_name model_num)
                 300 "tight" false fig.
Proof.
  revert tr. induction models as [|n models IH]; intros tr; simpl.
  - auto.
  - unfold IO.bind. rewrite body_eq.
    destruct (compose json_data_full json_data_confidence n) as [fig|e] eqn:E;
      simpl; [|auto].
    intros Hin. destruct (IH _ Hin) as [Hold|(m & fig' & Hm & Hc & ->)].
    + apply in_app_or in Hold. destruct Hold as [Hold|[<-|[]]]; [auto|].
      right. exists n, fig. auto.
    + right. exists m, fig'. auto.
Qed.

(** The loop only adds events. *)
Lemma loop_extends (models : list nat) (tr : list event) :
  exists more, fst (IO.for_each models body tr) = tr ++ more.
Proof.
  revert tr. induction models as [|n models IH]; intros tr; simpl.
  - exists []. now rewrite app_nil_r.
  - unfold IO.bind. rewrite body_eq.
    destruct (compose json_data_full json_data_confidence n) as [fig|e].
    + destruct (IH (tr ++ [Savefig (figure_name alphafold_prediction_name n)
                             300 "tight" false fig])) as (more & Hmore).
      rewrite Hmore. rewrite <- app_assoc. eauto.
    + exists []. now rewrite app_nil_r.
Qed.

End Loop.

Lemma for_each_ext {A : Type} (l : list A) (f g : A -> IO.t unit) (tr : list event) :
  (forall x tr', In x l -> f x tr' = g x tr') ->
  IO.for_each l f tr = IO.for_each l g tr.
Proof.
  revert tr. induction l as [|x l IH]; intros tr Hext; simpl; [reflexivity|].
  unfold IO.bind. rewrite Hext by now left.
  destruct (g x tr) as [tr' [[]|e]]; [|reflexivity].
  apply IH. intros y tr'' Hy. apply Hext. now right.
Qed.

(** [main] after its two loading steps. *)
Lemma main_loaded (fs : filesystem) (name : string) (fulls confs : list Json.json) :
  Forall2 (fun p j => fs p = Some (Valid j)) (json_name_full name) fulls ->
  Forall2 (fun p j => fs p = Some (Valid j)) (json_name_confidence name) confs ->
  IO.run (main fs name)
  = IO.for_each (range 5)
      (fun model_num =>
         (fig <- IO.lift (compose fulls confs model_num) ;;
          IO.emit (Savefig (figure_name name model_num) 300 "tight" false fig))%io)
      (map Open (json_name_full name) ++ map Open (json_name_confidence name)).
Proof.
  intros Hf Hc. unfold IO.run, main.
  unfold IO.bind at 1. rewrite (load_all_ok fs _ _ _ Hf).
  unfold IO.bind at 1. rewrite (load_all_ok fs _ _ _ Hc).
  reflexivity.
Qed.

(** When a file does not load, [main] only opens files, the first full-data
    file first, and raises. *)
Lemma main_not_loaded (fs : filesystem) (name : string) :
  ~ (exists fulls confs,
       Forall2 (fun p j => fs p = Some (Valid j)) (json_name_full name) fulls
       /\ Forall2 (fun p j => fs p = Some (Valid j)) (json_name_confidence name) confs) ->
  exists opened e,
    IO.run (main fs name)
    = (Open (nth 0 (json_name_full name) "") :: map Open opened, Raise e)
    /\ exit_status (@Raise unit e) = 1%Z.
Proof.
  intros Hnot. unfold IO.run, main.
  destruct (load_all_cases fs (json_name_full name) [])
    as [(fulls & Hf)|(k & e & Hk & He & Hpos)].
  - unfold IO.bind at 1. rewrite (load_all_ok fs _ _ _ Hf).
    destruct (load_all_cases fs (json_name_confidence name)
                ([] ++ map Open (json_name_full name)))
      as [(confs & Hc)|(k & e & Hk & He & _)].
    + exfalso. apply Hnot. now exists fulls, confs.
    + unfold IO.bind at 1. rewrite Hk.
      exists (tl (json_name_full name) ++ firstn k (json_name_confidence name)), e.
      rewrite map_app. split; [reflexivity|exact He].
  - unfold IO.bind at 1. rewrite Hk.
    destruct k as [|k]; [lia|].
    exists (firstn k (tl (json_name_full name))), e.
    split; [reflexivity|exact He].
Qed.

Lemma main_loaded_dec (fs : filesystem) (name : string) :
  (exists fulls confs,
     Forall2 (fun p j => fs p = Some (Valid j)) (json_name_full name) fulls
     /\ Forall2 (fun p j => fs p = Some (Valid j)) (json_name_confidence name) confs)
  \/ exists opened e,
       IO.run (main fs name)
       = (Open (nth 0 (json_name_full name) "") :: map Open opened, Raise e)
       /\ exit_status (@Raise unit e) = 1%Z.
Proof.
  destruct (load_all_cases fs (json_name_full name) []) as [(fulls & Hf)|Hbad].
  - destruct (load_all_cases fs (json_name_confidence name) [])
      as [(confs & Hc)|(k & e & Hk & He)].
    + left. now exists fulls, confs.
    + right. apply main_not_loaded. intros (fulls' & confs' & _ & Hc').
      rewrite (load_all_ok fs _ _ _ Hc') in Hk. discriminate.
  - right. apply main_not_loaded. intros (fulls' & confs' & Hf' & _).
    destruct Hbad as (k & e & Hk & He).
    rewrite (load_all_ok fs _ _ _ Hf') in Hk. discriminate.
Qed.

(** Every figure [main] saves is the figure composed from the loaded files
    for one of the five models. *)
Lemma main_savefig (fs : filesystem) (name path bbox : string) (dpi : Z)
  (transparent : bool) (fig : figure) :
  In (Savefig path dpi bbox transparent fig) (fst (IO.run (main fs name))) ->
  exists fulls confs model_num,
    Forall2 (fun p j => fs p = Some (Valid j)) (json_name_full name) fulls
    /\ Forall2 (fun p j => fs p = Some (Valid j)) (json_name_confidence name) confs
    /\ model_num < 5
    /\ compose fulls confs model_num = Ok fig
    /\ path = figure_name name model_num
    /\ dpi = 300%Z /\ bbox = "tight" /\ transparent = false.
Proof.
  intros Hin.
  destruct (main_loaded_dec fs name) as [(fulls & confs & Hf & Hc)|(o & e & Hrun & _)].
  - rewrite (main_loaded fs name fulls confs Hf Hc) in Hin.
    apply loop_events in Hin.
    destruct Hin as [Hin|(n & fig' & Hn & Hcomp & Hev)].
    + exfalso. rewrite <- map_app in Hin. apply in_map_iff in Hin.
      destruct Hin as (p & Hp & _). discriminate.
    + injection Hev as -> -> -> -> ->.
      exists fulls, confs, n. apply in_seq in Hn.
      repeat (split; [first [assumption|reflexivity|lia]|]). reflexivity.
  - rewrite Hrun in Hin. simpl in Hin.
    destruct Hin as [Hin|Hin]; [discriminate|].
    apply in_map_iff in Hin. destruct Hin as (p & Hp & _). discriminate.
Qed.

Lemma script_with_argument (fs : filesystem) (prog name : string) (rest : list string) :
  IO.run (script fs (prog :: name :: rest)) = IO.run (main fs name).
Proof. reflexivity. Qed.

(** The first thing [main] does is to open the first full-data file. *)
Lemma main_opens_first (fs : filesystem) (name : string) :
  exists rest,
    fst (IO.run (main fs name))
    = Open (os_path_join name (name ++ "_full_data_0.json")) :: rest.
Proof.
  destruct (main_loaded_dec fs name) as [(fulls & confs & Hf & Hc)|(o & e & Hrun & _)].
  - rewrite (main_loaded fs name fulls confs Hf Hc).
    destruct (loop_extends fulls confs name (range 5)
                (map Open (json_name_full name) ++ map Open (json_name_confidence name)))
      as (more & Hmore).
    rewrite Hmore. eexists. reflexivity.
  - rewrite Hrun. eexists. reflexivity.
Qed.

(* ================================================================= *)
(** ** The script: claims on errors *)

(** C7: invoked with no directory argument, the script prints the usage
    message and exits with status 1; it opens no file and saves no figure,
    whereas [main], once entered, opens a file first: [main] is not
    entered. *)
Theorem script_usage (fs : filesystem) (argv : list string) :
  List.length argv < 2 ->
  IO.run (script fs argv)
  = ([Print "Usage: python vis_pae.py <alphafold_prediction_directory>"],
     Raise (SystemExit 1))
  /\ exit_status (snd (IO.run (script fs argv))) = 1%Z
  /\ (forall ev, In ev (fst (IO.run (script fs argv))) ->
        is_open ev = false /\ is_savefig ev = false)
  /\ (forall name, exists p rest, fst (IO.run (main fs name)) = Open p :: rest).
Proof.
  intros Hlen.
  assert (Hrun : IO.run (script fs argv)
                 = ([Print "Usage: python vis_pae.py <alphafold_prediction_directory>"],
                    Raise (SystemExit 1))).
  { unfold IO.run, script.
    destruct (Nat.ltb_spec (List.length argv) 2) as [_|Hge]; [reflexivity|lia]. }
  rewrite Hrun. split; [reflexivity|]. split; [reflexivity|]. split.
  - intros ev [<-|[]]. split; reflexivity.
  - intros name. destruct (main_opens_first fs name) as (rest & Hrest). eauto.
Qed.

Lemma script_usage_witness :
  IO.run (script example_fs ["vis_pae.py"])
  = ([Print "Usage: python vis_pae.py <alphafold_prediction_directory>"],
     Raise (SystemExit 1))
  /\ exit_status (snd (IO.run (script example_fs ["vis_pae.py"]))) = 1%Z
  /\ (forall ev, In ev (fst (IO.run (script example_fs ["vis_pae.py"]))) ->
        is_open ev = false /\ is_savefig ev = false)
  /\ (forall name, exists p rest, fst (IO.run (main example_fs name)) = Open p :: rest).
Proof.
  apply (script_usage example_fs ["vis_pae.py"]). simpl. lia.
Defined.

(** C1 (as the code has it): when one of the ten JSON files is missing, for
    instance one of model 1 while model 0 is complete, the script fails
    while it loads the inputs: no figure is saved, not even the one of
    model 0, and the exit status is not zero. *)
Theorem missing_file_no_figure (fs : filesystem) (prog name : string)
  (rest : list string) (p : string) :
  In p (json_name_full name ++ json_name_confidence name) ->
  fs p = None ->
  (forall ev, In ev (fst (IO.run (script fs (prog :: name :: rest)))) ->
     is_savefig ev = false)
  /\ exit_status (snd (IO.run (script fs (prog :: name :: rest)))) <> 0%Z.
Proof.
  intros Hp Hmissing. rewrite script_with_argument.
  destruct (main_loaded_dec fs name) as [(fulls & confs & Hf & Hc)|(o & e & Hrun & He)].
  - exfalso. apply in_app_or in Hp. destruct Hp as [Hp|Hp].
    + destruct (loaded_all_present fs _ _ p Hf Hp) as (j & Hj). congruence.
    + destruct (loaded_all_present fs _ _ p Hc Hp) as (j & Hj). congruence.
  - rewrite Hrun. split.
    + cbn [fst]. intros ev [<-|Hin]; [reflexivity|].
      apply in_map_iff in Hin. destruct Hin as (q & <- & _). reflexivity.
    + cbn [snd]. rewrite He. discriminate.
Qed.

Lemma missing_file_no_figure_witness :
  (forall ev, In ev (fst (IO.run (script fs_model_1_incomplete example_argv))) ->
     is_savefig ev = false)
  /\ exit_status (snd (IO.run (script fs_model_1_incomplete example_argv))) <> 0%Z.
Proof.
  apply (missing_file_no_figure fs_model_1_incomplete "vis_pae.py" "fold" []
           "fold/fold_summary_confidences_1.json").
  - vm_compute. tauto.
  - reflexivity.
Defined.

(** C1 as stated fails: with every file of model 0 present and the summary
    of model 1 missing, [figure_pae_0.png] is not written. *)
Lemma figure_0_not_written :
  (forall p, In p ["fold/fold_full_data_0.json"; "fold/fold_summary_confidences_0.json"] ->
     exists j, fs_model_1_incomplete p = Some (Valid j))
  /\ In "fold/fold_summary_confidences_1.json" (json_name_confidence "fold")
  /\ fs_model_1_incomplete "fold/fold_summary_confidences_1.json" = None
  /\ ~ (exists dpi bbox transparent fig,
          In (Savefig "fold/figure_pae_0.png" dpi bbox transparent fig)
            (fst (IO.run (script fs_model_1_incomplete example_argv)))).
Proof.
  split; [|split; [|split]].
  - intros p [<-|[<-|[]]]; eexists; reflexivity.
  - vm_compute. tauto.
  - reflexivity.
  - intros (dpi & bbox & transparent & fig & Hin).
    vm_compute in Hin.
    repeat (destruct Hin as [Hin|Hin]; [discriminate|]).
    exact Hin.
Qed.

(* ================================================================= *)
(** ** The figure of a rendered model *)

Ltac bind_inv H x E :=
  match type of H with
  | Py.bind ?r _ = Ok _ =>
      destruct r as [x|] eqn:E; cbn [Py.bind] in H; [|discriminate H]
  end.

Lemma list_getitem_inv {A : Type} (l : list A) (i : nat) (x : A) :
  list_getitem l i = Ok x -> nth_error l i = Some x.
Proof.
  unfold list_getitem. destruct (nth_error l i); congruence.
Qed.

Lemma json_getitem_inv {A : Type} (field : Json.object -> option A)
  (key : string) (j : Json.json) (v : A) :
  Json.getitem field key j = Ok v ->
  exists o, j = Json.JObject o /\ field o = Some v.
Proof.
  destruct j as [o|]; simpl; [|discriminate].
  destruct (field o) eqn:E; [|discriminate].
  intros [= ->]. eauto.
Qed.

Lemma Forall2_nth_error_r {A B : Type} (R : A -> B -> Prop) (l : list A) (r : list B) :
  Forall2 R l r ->
  forall i b, nth_error r i = Some b -> exists a, nth_error l i = Some a /\ R a b.
Proof.
  induction 1 as [|x y l r Hxy HF IH]; intros [|i] b Hi; simpl in *; try discriminate.
  - injection Hi as <-. eauto.
  - eauto.
Qed.

Lemma boundary_lines_In (starts : dict nat) (l : call) :
  In l (boundary_lines starts)
  <-> exists c s, In (c, s) starts /\ s <> 0 /\ In l (separators s).
Proof.
  unfold boundary_lines, items. rewrite in_flat_map. split.
  - intros ([c s] & Hcs & Hl). cbn [snd] in Hl.
    destruct (Nat.eqb_spec s 0) as [->|Hne]; [destruct Hl|].
    exists c, s. auto.
  - intros (c & s & Hcs & Hne & Hl). exists (c, s). split; [exact Hcs|].
    cbn [snd]. destruct (Nat.eqb_spec s 0) as [->|_]; [contradiction|exact Hl].
Qed.

Lemma chain_labels_In (starts ends : dict nat) (labels : figure) :
  chain_labels starts ends = Ok labels ->
  forall t, In t labels
            <-> exists c s e, In c (keys starts)
                              /\ dict_get starts c = Some s
                              /\ dict_get ends c = Some e
                              /\ In t (label_texts c s e).
Proof.
  unfold chain_labels.
  match goal with |- foldM ?f _ _ = _ -> _ => set (body := f) end.
  assert (Hgen : forall l acc res, foldM body l acc = Ok res ->
            forall t, In t res
                      <-> In t acc
                          \/ exists c s e, In c l
                                           /\ dict_get starts c = Some s
                                           /\ dict_get ends c = Some e
                                           /\ In t (label_texts c s e)).
  { induction l as [|c l IH]; intros acc res Hres t; simpl in Hres.
    - injection Hres as <-. split; [auto|].
      intros [H|(c & s & e & [] & _)]. exact H.
    - bind_inv Hres acc' E. unfold body in E.
      unfold getitem in E.
      destruct (dict_get starts c) as [s|] eqn:Es; [|discriminate].
      destruct (dict_get ends c) as [e|] eqn:Ee; [|discriminate].
      cbn [Py.bind] in E. injection E as <-.
      rewrite (IH _ _ Hres t), in_app_iff. split.
      + intros [[H|H]|(c' & s' & e' & Hc' & H)].
        * auto.
        * right. exists c, s, e. split; [now left|auto].
        * right. exists c', s', e'. split; [now right|exact H].
      + intros [H|(c' & s' & e' & [<-|Hc'] & Hs' & He' & H)].
        * auto.
        * left. right. rewrite Es in Hs'. rewrite Ee in He'.
          injection Hs' as <-. injection He' as <-. exact H.
        * right. exists c', s', e'. auto. }
  intros Hres t. rewrite (Hgen _ _ _ Hres t). simpl. tauto.
Qed.

(** A figure that [compose] returns is the fixed layout, followed by the
    boundary lines of the recorded starts and by the chain labels. *)
Lemma compose_inv (fulls confs : list Json.json) (n : nat) (fig : figure) :
  compose fulls confs n = Ok fig ->
  exists o ids num starts ends nums layout labels,
    nth_error fulls n = Some (Json.JObject o)
    /\ Json.token_chain_ids o = Some ids
    /\ process_token_chains ids = Ok (num, starts, ends, nums)
    /\ chain_labels starts ends = Ok labels
    /\ fig = layout ++ boundary_lines starts ++ labels
    /\ forallb (fun c => negb (is_line c) && negb (is_text c)) layout = true.
Proof.
  unfold compose. intros H.
  bind_inv H full Efull. apply list_getitem_inv in Efull.
  bind_inv H ks Eks. bind_inv H confidence Econf. bind_inv H kc Ekc.
  bind_inv H ids Eids.
  apply json_getitem_inv in Eids. destruct Eids as (o & -> & Hids).
  bind_inv H seg Eseg. destruct seg as [[[num starts] ends] nums].
  bind_inv H token_res_ids Eres. bind_inv H pae_array Epae.
  bind_inv H labels Elabels.
  cbv zeta in H. cbn [fst snd] in H, Elabels.
  match type of H with
  | Ok ((?X ++ _) ++ _) = _ => set (layout := X) in H
  end.
  exists o, ids, num, starts, ends, nums, layout, labels.
  split; [exact Efull|]. split; [exact Hids|]. split; [exact Eseg|].
  split; [exact Elabels|]. split.
  - rewrite app_assoc. congruence.
  - reflexivity.
Qed.

Lemma filter_none {A : Type} (f : A -> bool) (l : list A) :
  (forall x, In x l -> f x = false) -> filter f l = [].
Proof.
  induction l as [|x l IH]; intros H; simpl; [reflexivity|].
  rewrite (H x) by now left. apply IH. intros y Hy. apply H. now right.
Qed.

Lemma filter_boundary_lines (starts : dict nat) :
  filter is_line (boundary_lines starts) = boundary_lines starts.
Proof.
  unfold boundary_lines, items.
  induction starts as [|[c s] starts IH]; [reflexivity|].
  cbn [flat_map snd]. rewrite filter_app, IH. f_equal.
  destruct (s =? 0); reflexivity.
Qed.

Lemma script_savefig (fs : filesystem) (argv : list string) (ev : event) :
  In ev (fst (IO.run (script fs argv))) -> is_savefig ev = true ->
  exists name, nth_error argv 1 = Some name /\ In ev (fst (IO.run (main fs name))).
Proof.
  destruct argv as [|prog [|name rest]].
  - intros [<-|[]]; discriminate.
  - intros [<-|[]]; discriminate.
  - rewrite script_with_argument. intros Hin _. exists name. auto.
Qed.

(** Every figure the script saves belongs to a model whose full-data file
    was read, and consists of the fixed layout, the separators of the chains
    that do not start at position 0, and the labels of the chains. *)
Lemma rendered_figure (fs : filesystem) (argv : list string) (path bbox : string)
  (dpi : Z) (transparent : bool) (fig : figure) :
  In (Savefig path dpi bbox transparent fig) (fst (IO.run (script fs argv))) ->
  clean_inputs fs argv ->
  exists name model_num p o ids,
    nth_error argv 1 = Some name
    /\ path = figure_name name model_num
    /\ nth_error (json_name_full name) model_num = Some p
    /\ fs p = Some (Valid (Json.JObject o))
    /\ Json.token_chain_ids o = Some ids
    /\ (exists num starts ends nums,
          process_token_chains ids = Ok (num, starts, ends, nums)
          /\ filter is_line fig = boundary_lines starts)
    /\ (forall l, In l fig -> is_line l = true ->
          exists c s, first_occurrence ids c s /\ s <> 0 /\ In l (separators s))
    /\ (forall c s l, first_occurrence ids c s -> s <> 0 ->
          In l (separators s) -> In l fig)
    /\ (forall t, In t fig -> is_text t = true ->
          exists c s e, first_occurrence ids c s /\ last_occurrence ids c e
                        /\ In t (label_texts c s e))
    /\ (forall c s e t, first_occurrence ids c s -> last_occurrence ids c e ->
          In t (label_texts c s e) -> In t fig).
Proof.
  intros Hin Hinputs.
  destruct (script_savefig _ _ _ Hin eq_refl) as (name & Hname & Hmain).
  destruct (main_savefig _ _ _ _ _ _ _ Hmain)
    as (fulls & confs & n & Hf & Hc & Hn & Hcomp & -> & _).
  destruct (compose_inv _ _ _ _ Hcomp)
    as (o & ids & num & starts & ends & nums & layout & labels
        & Hfull & Hids & Hseg & Hlabels & -> & Hlayout).
  destruct (Forall2_nth_error_r _ _ _ Hf n _ Hfull) as (p & Hp & Hfs).
  pose proof (Hinputs name p o ids Hname (nth_error_In _ _ Hp) Hfs Hids) as Hclean.
  destruct (process_token_chains_spec ids Hclean)
    as (num' & starts' & ends' & row & Heq & _ & Ks & Ke & _ & _ & Hs & He & _).
  rewrite Hseg in Heq. injection Heq as -> -> -> ->.

  assert (Hnd : NoDup (keys starts')) by (rewrite Ks; apply unique_NoDup).
  rewrite forallb_forall in Hlayout.
  pose proof (chain_labels_In _ _ _ Hlabels) as Hlab.
  exists name, n, p, o, ids.
  do 5 (split; [first [assumption|reflexivity]|]).
  split; [|split; [|split; [|split]]].
  - exists num', starts', ends', [row]. split; [exact Hseg|].
    rewrite !filter_app.
    rewrite (filter_none is_line layout), (filter_none is_line labels).
    + rewrite app_nil_r. apply filter_boundary_lines.
    + intros t Ht. apply Hlab in Ht.
      destruct Ht as (c & s & e & _ & _ & _ & [<-|[<-|[]]]); reflexivity.
    + intros l Hl. apply Hlayout in Hl.
      destruct (is_line l); [discriminate|reflexivity].
  - intros l Hl Hline.
    apply in_app_or in Hl. destruct Hl as [Hl|Hl].
    { apply Hlayout in Hl. rewrite Hline in Hl. discriminate. }
    apply in_app_or in Hl. destruct Hl as [Hl|Hl].
    + apply boundary_lines_In in Hl. destruct Hl as (c & s & Hcs & Hne & Hl).
      exists c, s. split; [|auto].
      apply Hs. now apply dict_get_In.
    + apply Hlab in Hl. destruct Hl as (c & s & e & _ & _ & _ & Hl).
      destruct Hl as [<-|[<-|[]]]; discriminate.
  - intros c s l Hcs Hne Hl.
    apply in_or_app. right. apply in_or_app. left.
    apply boundary_lines_In. exists c, s. split; [|auto].
    apply dict_get_In; [exact Hnd|]. now apply Hs.
  - intros t Ht Htext.
    apply in_app_or in Ht. destruct Ht as [Ht|Ht].
    { apply Hlayout in Ht. rewrite Htext in Ht.
      rewrite andb_false_r in Ht. discriminate. }
    apply in_app_or in Ht. destruct Ht as [Ht|Ht].
    + apply boundary_lines_In in Ht. destruct Ht as (c & s & _ & _ & Ht).
      destruct Ht as [<-|[<-|[<-|[<-|[]]]]]; discriminate.
    + apply Hlab in Ht. destruct Ht as (c & s & e & _ & Hcs & Hce & Ht).
      exists c, s, e. split; [now apply Hs|]. split; [now apply He|exact Ht].
  - intros c s e t Hcs Hce Ht.
    apply in_or_app. right. apply in_or_app. right.
    apply Hlab. exists c, s, e.
    split; [|split; [now apply Hs|split; [now apply He|exact Ht]]].
    rewrite Ks. apply unique_In. exact (occurrence_In _ _ _ (proj1 Hcs)).
Qed.

Lemma separators_inj (s s' : nat) (l : call) :
  In l (separators s) -> In l (separators s') -> s = s'.
Proof.
  unfold separators, of_pos, Qminus, Qplus, Qopp, inject_Z.
  cbn [Qnum Qden In].
  intros H H'.
  repeat match goal with
         | H : _ \/ _ |- _ => destruct H as [H|H]
         | H : False |- _ => destruct H
         end;
    subst l; try discriminate; injection H' as H'; lia.
Qed.

(* ================================================================= *)
(** ** The figure composer: claims *)

(** C4: in every figure the script saves from chain labels that do not end
    in NUL, the four separators (a dashed
    black line on both axes of the center panel, a solid white line in the
    top and in the left strip), all at start - 0.5, are drawn for exactly the
    chains whose first occurrence is not at position 0; no line is a
    separator of a chain that starts at position 0; and for "AAABBBCCC" the
    recorded starts are 0, 3, 6 and the lines are the separators at 3 and at
    6. *)
Theorem boundary_lines_at_chain_starts (fs : filesystem) (argv : list string)
  (path bbox : string) (dpi : Z) (transparent : bool) (fig : figure) :
  In (Savefig path dpi bbox transparent fig) (fst (IO.run (script fs argv))) ->
  clean_inputs fs argv ->
  exists name model_num p o ids,
    nth_error argv 1 = Some name
    /\ path = figure_name name model_num
    /\ nth_error (json_name_full name) model_num = Some p
    /\ fs p = Some (Valid (Json.JObject o))
    /\ Json.token_chain_ids o = Some ids
    /\ (forall c s, first_occurrence ids c s -> s <> 0 ->
          In (axhline ax (of_pos s - (1 # 2)) "k" 1 "--") fig
          /\ In (axvline ax (of_pos s - (1 # 2)) "k" 1 "--") fig
          /\ In (axvline ax_topbar (of_pos s - (1 # 2)) "w" 1 "-") fig
          /\ In (axhline ax_leftbar (of_pos s - (1 # 2)) "w" 1 "-") fig)
    /\ (forall l, In l fig -> is_line l = true ->
          exists c s, first_occurrence ids c s /\ s <> 0 /\ In l (separators s))
    /\ (forall l, In l fig -> is_line l = true -> ~ In l (separators 0))
    /\ (ids = chars "AAABBBCCC" ->
          exists num starts ends nums,
            process_token_chains ids = Ok (num, starts, ends, nums)
            /\ starts = [("A", 0); ("B", 3); ("C", 6)]
            /\ filter is_line fig = separators 3 ++ separators 6).
Proof.
  intros Hin Hinputs.
  destruct (rendered_figure _ _ _ _ _ _ _ Hin Hinputs)
    as (name & n & p & o & ids & Hname & Hpath & Hp & Hfs & Hids
        & (num & starts & ends & nums & Hseg & Hfilter) & Honly & Hall & _).
  exists name, n, p, o, ids.
  do 5 (split; [assumption|]).
  split; [|split; [|split]].
  - intros c s Hcs Hne.
    repeat split; apply (Hall c s); auto; simpl; tauto.
  - exact Honly.
  - intros l Hl Hline H0.
    destruct (Honly l Hl Hline) as (c & s & _ & Hne & Hs).
    apply Hne. exact (separators_inj _ _ _ Hs H0).
  - intros ->. exists num, starts, ends, nums.
    split; [exact Hseg|].
    vm_compute in Hseg. injection Hseg as <- <- <- <-.
    split; [reflexivity|]. rewrite Hfilter. reflexivity.
Qed.

Lemma boundary_lines_at_chain_starts_witness :
  exists name model_num p o ids,
    nth_error example_argv 1 = Some name
    /\ "fold/figure_pae_0.png" = figure_name name model_num
    /\ nth_error (json_name_full name) model_num = Some p
    /\ example_fs p = Some (Valid (Json.JObject o))
    /\ Json.token_chain_ids o = Some ids
    /\ (forall c s, first_occurrence ids c s -> s <> 0 ->
          In (axhline ax (of_pos s - (1 # 2)) "k" 1 "--") example_figure
          /\ In (axvline ax (of_pos s - (1 # 2)) "k" 1 "--") example_figure
          /\ In (axvline ax_topbar (of_pos s - (1 # 2)) "w" 1 "-") example_figure
          /\ In (axhline ax_leftbar (of_pos s - (1 # 2)) "w" 1 "-") example_figure)
    /\ (forall l, In l example_figure -> is_line l = true ->
          exists c s, first_occurrence ids c s /\ s <> 0 /\ In l (separators s))
    /\ (forall l, In l example_figure -> is_line l = true -> ~ In l (separators 0))
    /\ (ids = chars "AAABBBCCC" ->
          exists num starts ends nums,
            process_token_chains ids = Ok (num, starts, ends, nums)
            /\ starts = [("A", 0); ("B", 3); ("C", 6)]
            /\ filter is_line example_figure = separators 3 ++ separators 6).
Proof.
  apply (boundary_lines_at_chain_starts example_fs example_argv
           "fold/figure_pae_0.png" "tight" 300 false example_figure).
  - vm_compute. do 10 right. left. reflexivity.
  - example_inputs_clean.
Defined.

(** C5: in every figure the script saves from chain labels that do not end
    in NUL, each chain label is written in the
    top strip and in the left strip at the midpoint (first + last) / 2 of the
    first and last positions at which the label occurs, and the figure holds
    no other text. *)
Theorem labels_at_midpoints (fs : filesystem) (argv : list string)
  (path bbox : string) (dpi : Z) (transparent : bool) (fig : figure) :
  In (Savefig path dpi bbox transparent fig) (fst (IO.run (script fs argv))) ->
  clean_inputs fs argv ->
  exists name model_num p o ids,
    nth_error argv 1 = Some name
    /\ path = figure_name name model_num
    /\ nth_error (json_name_full name) model_num = Some p
    /\ fs p = Some (Valid (Json.JObject o))
    /\ Json.token_chain_ids o = Some ids
    /\ (forall c s e, first_occurrence ids c s -> last_occurrence ids c e ->
          In (text ax_topbar (of_pos (s + e) / 2) 0 c "#222222" "center" "center") fig
          /\ In (text ax_leftbar 0 (of_pos (s + e) / 2) c "#222222" "center" "center") fig)
    /\ (forall c, In c ids ->
          exists s e, first_occurrence ids c s /\ last_occurrence ids c e)
    /\ (forall t, In t fig -> is_text t = true ->
          exists c s e, first_occurrence ids c s /\ last_occurrence ids c e
                        /\ In t (label_texts c s e)).
Proof.
  intros Hin Hinputs.
  destruct (rendered_figure _ _ _ _ _ _ _ Hin Hinputs)
    as (name & n & p & o & ids & Hname & Hpath & Hp & Hfs & Hids
        & _ & _ & _ & Honly & Hall).
  exists name, n, p, o, ids.
  do 5 (split; [assumption|]).
  split; [|split].
  - intros c s e Hcs Hce.
    split; apply (Hall c s e); auto; simpl; tauto.
  - intros c Hc. eexists _, _.
    split; [now apply first_occurrence_hd|now apply last_occurrence_last].
  - exact Honly.
Qed.

Lemma labels_at_midpoints_witness :
  exists name model_num p o ids,
    nth_error example_argv 1 = Some name
    /\ "fold/figure_pae_0.png" = figure_name name model_num
    /\ nth_error (json_name_full name) model_num = Some p
    /\ example_fs p = Some (Valid (Json.JObject o))
    /\ Json.token_chain_ids o = Some ids
    /\ (forall c s e, first_occurrence ids c s -> last_occurrence ids c e ->
          In (text ax_topbar (of_pos (s + e) / 2) 0 c "#222222" "center" "center")
            example_figure
          /\ In (text ax_leftbar 0 (of_pos (s + e) / 2) c "#222222" "center" "center")
               example_figure)
    /\ (forall c, In c ids ->
          exists s e, first_occurrence ids c s /\ last_occurrence ids c e)
    /\ (forall t, In t example_figure -> is_text t = true ->
          exists c s e, first_occurrence ids c s /\ last_occurrence ids c e
                        /\ In t (label_texts c s e)).
Proof.
  apply (labels_at_midpoints example_fs example_argv
           "fold/figure_pae_0.png" "tight" 300 false example_figure).
  - vm_compute. do 10 right. left. reflexivity.
  - example_inputs_clean.
Defined.

(* ================================================================= *)
(** ** Inputs the figures do not depend on *)

Lemma load_cons (fs : filesystem) (p : string) (paths : list string)
  (tr : list event) :
  IO.mapM (json_load_open fs) (p :: paths) tr
  = match fs p with
    | Some (Valid j) =>
        match IO.mapM (json_load_open fs) paths (tr ++ [Open p]) with
        | (tr', Ok js) => (tr', Ok (j :: js))
        | (tr', Raise e) => (tr', Raise e)
        end
    | Some Malformed => (tr ++ [Open p], Raise (JSONDecodeError p))
    | None => (tr ++ [Open p], Raise (FileNotFoundError p))
    end.
Proof.
  simpl. unfold IO.bind at 1. rewrite json_load_open_eq.
  destruct (fs p) as [[|j]|]; try reflexivity.
Qed.

Lemma Forall2_nth_error_both {A B : Type} (R : A -> B -> Prop)
  (l : list A) (r : list B) :
  Forall2 R l r ->
  forall i,
    (nth_error l i = None /\ nth_error r i = None)
    \/ exists a b, nth_error l i = Some a /\ nth_error r i = Some b /\ R a b.
Proof.
  induction 1 as [|x y l r Hxy HF IH]; intros [|i]; simpl; auto.
  right. exists x, y. auto.
Qed.

Section Noninterference.

Variables fs1 fs2 : filesystem.

(** Loading two directories whose files are the same or related by [R]
    leaves the same log, and either raises the same error or returns
    related values. *)
Lemma load_all_related (R : Json.json -> Json.json -> Prop)
  (paths : list string) (tr : list event) :
  (forall p, In p paths ->
     fs1 p = fs2 p
     \/ exists j1 j2, fs1 p = Some (Valid j1) /\ fs2 p = Some (Valid j2) /\ R j1 j2) ->
  (exists tr' e,
      IO.mapM (json_load_open fs1) paths tr = (tr', Raise e)
      /\ IO.mapM (json_load_open fs2) paths tr = (tr', Raise e))
  \/ (exists tr' js1 js2,
        IO.mapM (json_load_open fs1) paths tr = (tr', Ok js1)
        /\ IO.mapM (json_load_open fs2) paths tr = (tr', Ok js2)
        /\ Forall2 (fun a b => a = b \/ R a b) js1 js2).
Proof.
  revert tr. induction paths as [|p paths IH]; intros tr Hrel.
  - right. exists tr, [], []. repeat split. constructor.
  - rewrite !load_cons.
    assert (Hrest : forall q, In q paths ->
              fs1 q = fs2 q
              \/ exists j1 j2, fs1 q = Some (Valid j1) /\ fs2 q = Some (Valid j2)
                               /\ R j1 j2)
      by (intros q Hq; apply Hrel; now right).
    specialize (IH (tr ++ [Open p]) Hrest).
    assert (Hp : exists f1 f2, fs1 p = f1 /\ fs2 p = f2
                 /\ (f1 = f2 \/ exists j1 j2, f1 = Some (Valid j1)
                                              /\ f2 = Some (Valid j2) /\ R j1 j2)).
    { exists (fs1 p), (fs2 p). repeat split. apply Hrel. now left. }
    destruct Hp as (f1 & f2 & -> & -> & [<-|(j1 & j2 & -> & -> & Hj)]).
    + destruct f1 as [[|j]|].
      * left. eauto.
      * destruct IH as [(tr' & e & -> & ->)|(tr' & js1 & js2 & -> & -> & HF)].
        -- left. eauto.
        -- right. exists tr', (j :: js1), (j :: js2). repeat split.
           constructor; auto.
      * left. eauto.
    + destruct IH as [(tr' & e & -> & ->)|(tr' & js1 & js2 & -> & -> & HF)].
      * left. eauto.
      * right. exists tr', (j1 :: js1), (j2 :: js2). repeat split.
        constructor; auto.
Qed.

End Noninterference.

(** The figure of a model depends neither on the summary object nor on the
    values of [token_res_ids]. *)
Lemma compose_related (fulls1 fulls2 confs1 confs2 : list Json.json) (n : nat) :
  Forall2 (fun a b =>
             a = b
             \/ exists o1 o2 r1 r2,
                  a = Json.JObject o1 /\ b = Json.JObject o2
                  /\ Json.token_chain_ids o1 = Json.token_chain_ids o2
                  /\ Json.pae o1 = Json.pae o2
                  /\ Json.token_res_ids o1 = Some r1
                  /\ Json.token_res_ids o2 = Some r2
                  /\ List.length r1 = List.length r2) fulls1 fulls2 ->
  Forall2 (fun a b =>
             a = b \/ exists o1 o2, a = Json.JObject o1 /\ b = Json.JObject o2)
    confs1 confs2 ->
  compose fulls1 confs1 n = compose fulls2 confs2 n.
Proof.
  intros Hf Hc. unfold compose, list_getitem.
  destruct (Forall2_nth_error_both _ _ _ Hf n)
    as [[-> ->]|(a & b & -> & -> & Hab)]; [reflexivity|].
  destruct (Forall2_nth_error_both _ _ _ Hc n)
    as [[-> ->]|(c & d & -> & -> & Hcd)].
  - destruct Hab as [<-|(o1 & o2 & r1 & r2 & -> & -> & _)].
    + destruct a; reflexivity.
    + reflexivity.
  - destruct Hab as [<-|(o1 & o2 & r1 & r2 & -> & -> & Hids & Hpae & Hr1 & Hr2 & _)].
    + destruct a as [o|]; [|reflexivity].
      cbn [Py.bind Json.keys].
      destruct Hcd as [<-|(oc1 & oc2 & -> & ->)]; reflexivity.
    + cbn [Py.bind Json.keys Json.getitem].
      rewrite Hids, Hpae, Hr1, Hr2.
      destruct Hcd as [<-|(oc1 & oc2 & -> & ->)]; reflexivity.
Qed.

(** C8 (as the code has it): two runs on directories that differ only in the
    contents of the summary-confidences files, which parse to JSON objects
    in both, and in the values of [token_res_ids], of the same length,
    behave alike: the same files are opened, the same figures are saved
    under the same names, and the outcome is the same. *)
Theorem dead_inputs_do_not_influence (fs1 fs2 : filesystem) (prog name : string)
  (rest : list string) :
  (forall p, In p (json_name_full name) -> same_but_res_ids (fs1 p) (fs2 p)) ->
  (forall p, In p (json_name_confidence name) -> same_but_summary (fs1 p) (fs2 p)) ->
  IO.run (script fs1 (prog :: name :: rest))
  = IO.run (script fs2 (prog :: name :: rest)).
Proof.
  intros Hfull Hconf. rewrite !script_with_argument. unfold IO.run, main.
  unfold IO.bind at 1. unfold IO.bind at 3.
  destruct (load_all_related fs1 fs2
              (fun a b => exists o1 o2 r1 r2,
                   a = Json.JObject o1 /\ b = Json.JObject o2
                   /\ Json.token_chain_ids o1 = Json.token_chain_ids o2
                   /\ Json.pae o1 = Json.pae o2
                   /\ Json.token_res_ids o1 = Some r1
                   /\ Json.token_res_ids o2 = Some r2
                   /\ List.length r1 = List.length r2)
              (json_name_full name) [])
    as [(tr' & e & -> & ->)|(tr' & fulls1 & fulls2 & -> & -> & HF)].
  { intros p Hp. destruct (Hfull p Hp)
      as [Heq|(o1 & o2 & r1 & r2 & H1 & H2 & Hrest)]; [now left|].
    right. exists (Json.JObject o1), (Json.JObject o2).
    split; [exact H1|]. split; [exact H2|].
    exists o1, o2, r1, r2. auto. }
  - reflexivity.
  - unfold IO.bind at 1. unfold IO.bind at 2.
    destruct (load_all_related fs1 fs2
                (fun a b => exists o1 o2, a = Json.JObject o1 /\ b = Json.JObject o2)
                (json_name_confidence name) tr')
      as [(tr'' & e & -> & ->)|(tr'' & confs1 & confs2 & -> & -> & HC)].
    { intros p Hp. destruct (Hconf p Hp) as [Heq|(o1 & o2 & H1 & H2)]; [now left|].
      right. exists (Json.JObject o1), (Json.JObject o2).
      split; [exact H1|]. split; [exact H2|]. exists o1, o2. auto. }
    + reflexivity.
    + apply for_each_ext. intros n tr _.
      unfold IO.bind, IO.lift.
      now rewrite (compose_related fulls1 fulls2 confs1 confs2 n HF HC).
Qed.

Lemma dead_inputs_do_not_influence_witness :
  IO.run (script example_fs ("vis_pae.py" :: "fold" :: []))
  = IO.run (script example_fs_renumbered ("vis_pae.py" :: "fold" :: [])).
Proof.
  apply (dead_inputs_do_not_influence example_fs example_fs_renumbered
           "vis_pae.py" "fold" []).
  - intros p Hp. vm_compute in Hp. each_path Hp.
    all: right; eexists _, _, _, _; vm_compute; repeat split; reflexivity.
  - intros p Hp. vm_compute in Hp. each_path Hp.
    all: right; eexists _, _; vm_compute; split; reflexivity.
Defined.

(** C8 as stated fails: the two directories hold the same full-data files and
    summaries that all parse, and differ only in the summary of model 0, an
    object in one and an array in the other; the first run saves five
    figures and the second none. *)
Lemma summary_array_stops_rendering :
  (forall p, In p (json_name_full "fold") -> example_fs p = fs_summary_0_array p)
  /\ (forall p, In p (json_name_confidence "fold") ->
        exists j1 j2, example_fs p = Some (Valid j1)
                      /\ fs_summary_0_array p = Some (Valid j2))
  /\ (forall p, ~ In p (json_name_confidence "fold") ->
        example_fs p = fs_summary_0_array p)
  /\ List.length (filter is_savefig (fst (IO.run (script example_fs example_argv)))) = 5
  /\ filter is_savefig (fst (IO.run (script fs_summary_0_array example_argv))) = []
  /\ IO.run (script example_fs example_argv)
     <> IO.run (script fs_summary_0_array example_argv).
Proof.
  assert (Hother : forall p, ~ In p (json_name_confidence "fold") ->
                     example_fs p = fs_summary_0_array p).
  { intros p Hp. unfold fs_summary_0_array.
    destruct (String.eqb_spec p "fold/fold_summary_confidences_0.json") as [->|_];
      [|reflexivity].
    exfalso. apply Hp. vm_compute. tauto. }
  split; [|split; [|split; [|split; [|split]]]].
  - intros p Hp. vm_compute in Hp. each_path Hp. all: reflexivity.
  - intros p Hp. vm_compute in Hp. each_path Hp.
    all: eexists _, _; split; reflexivity.
  - exact Hother.
  - vm_compute. reflexivity.
  - vm_compute. reflexivity.
  - intros Heq.
    apply (f_equal (fun r => List.length (filter is_savefig (fst r)))) in Heq.
    vm_compute in Heq. discriminate.
Qed.

(* ================================================================= *)
(** ** Further properties of the chain segmenter *)

Lemma sorted_nth_lt (u : list string) (i j : nat) (a b : string) :
  StronglySorted label_lt u ->
  nth_error u i = Some a -> nth_error u j = Some b -> i < j -> label_lt a b.
Proof.
  intros Hu. revert i j.
  induction Hu as [|x u Hu IH Hx]; intros i j Hi Hj Hlt.
  - destruct i; discriminate.
  - destruct j as [|j]; [lia|]. simpl in Hj.
    destruct i as [|i]; simpl in Hi.
    + injection Hi as ->. rewrite Forall_forall in Hx.
      apply Hx. exact (nth_error_In _ _ Hj).
    + apply (IH i j Hi Hj). lia.
Qed.

(** X1: the codes follow the order of the labels: of two labels of the
    input, the lexicographically smaller one has the smaller code. *)
Theorem codes_follow_label_order (ids : list string) :
  exists chain_to_num chain_to_start_index chain_to_end_index token_chain_nums,
    process_token_chains ids
    = Ok (chain_to_num, chain_to_start_index, chain_to_end_index, token_chain_nums)
    /\ forall c1 c2 k1 k2,
         dict_get chain_to_num c1 = Some k1 ->
         dict_get chain_to_num c2 = Some k2 ->
         (label_lt c1 c2 <-> k1 < k2).
Proof.
  destruct (process_token_chains_array_spec ids)
    as (num & starts & ends & row & Heq & _ & _ & _ & _ & Hnum & _).
  exists num, starts, ends, [row]. split; [exact Heq|].
  intros c1 c2 k1 k2 H1 H2.
  apply Hnum in H1, H2.
  pose proof (unique_sorted (Np.array ids)) as Hsorted.
  split.
  - intros Hlt.
    destruct (Nat.lt_trichotomy k1 k2) as [Hk|[Hk|Hk]]; [exact Hk| |].
    + exfalso. subst k2. rewrite H1 in H2. injection H2 as <-.
      exact (label_lt_irrefl _ Hlt).
    + exfalso. apply (label_lt_asym _ _ Hlt).
      exact (sorted_nth_lt _ _ _ _ _ Hsorted H2 H1 Hk).
  - exact (sorted_nth_lt _ _ _ _ _ Hsorted H1 H2).
Qed.

(** X2: [chain_to_num] depends only on the set of labels: two sequences
    with the same labels, in any order and any number of times, get the same
    dictionary. *)
Theorem chain_to_num_of_label_set (ids1 ids2 : list string) :
  (forall c, In c ids1 <-> In c ids2) ->
  exists chain_to_num starts1 ends1 nums1 starts2 ends2 nums2,
    process_token_chains ids1 = Ok (chain_to_num, starts1, ends1, nums1)
    /\ process_token_chains ids2 = Ok (chain_to_num, starts2, ends2, nums2).
Proof.
  intros Hsame.
  destruct (process_token_chains_closed ids1) as (row1 & H1 & _).
  destruct (process_token_chains_closed ids2) as (row2 & H2 & _).
  assert (Hu : Np.unique (Np.array ids1) = Np.unique (Np.array ids2)).
  { apply sorted_unique; try apply unique_sorted.
    intros c. rewrite !unique_In. unfold Np.array. rewrite !in_map_iff.
    split; intros (c' & Hc' & Hin); exists c'; (split; [exact Hc'|]);
      now apply Hsame. }
  rewrite Hu in H1.
  eexists _, _, _, _, _, _, _. split; [exact H1|exact H2].
Qed.

Lemma chain_to_num_of_label_set_witness :
  exists chain_to_num starts1 ends1 nums1 starts2 ends2 nums2,
    process_token_chains ["B"; "A"; "B"] = Ok (chain_to_num, starts1, ends1, nums1)
    /\ process_token_chains ["A"; "B"; "A"; "A"]
       = Ok (chain_to_num, starts2, ends2, nums2).
Proof.
  apply (chain_to_num_of_label_set ["B"; "A"; "B"] ["A"; "B"; "A"; "A"]).
  intros c. simpl. tauto.
Defined.

(** X3: for labels that do not end in NUL, the coded array uses exactly the
    codes 0, ..., k-1, for k the number of distinct labels: every entry is
    below k and every code below k occurs. *)
Theorem codes_cover_range (ids : list string) :
  clean_labels ids ->
  exists chain_to_num chain_to_start_index chain_to_end_index row,
    process_token_chains ids
    = Ok (chain_to_num, chain_to_start_index, chain_to_end_index, [row])
    /\ forall k, In k row <-> k < List.length (distinct ids).
Proof.
  intros Hclean.
  destruct (process_token_chains_spec ids Hclean)
    as (num & starts & ends & row & Heq & _ & _ & _ & _ & _ & _ & _ & HF).
  exists num, starts, ends, row. split; [exact Heq|].
  intros k. rewrite <- unique_length. split.
  - intros Hk. apply In_nth_error in Hk. destruct Hk as (i & Hi).
    destruct (Forall2_nth_error_r _ _ _ HF i k Hi) as (c & _ & Hc).
    apply nth_error_Some. congruence.
  - intros Hk.
    destruct (nth_error (Np.unique ids) k) as [c|] eqn:Ec;
      [|apply nth_error_Some in Hk; contradiction].
    assert (Hc : In c ids) by (apply unique_In; exact (nth_error_In _ _ Ec)).
    apply In_nth_error in Hc. destruct Hc as (i & Hi).
    destruct (Forall2_nth_error _ _ _ HF i c Hi) as (k' & Hk' & Hc').
    assert (k' = k) as ->.
    { pose proof (unique_NoDup ids) as Hnd.
      rewrite NoDup_nth_error in Hnd. apply Hnd.
      - apply nth_error_Some. congruence.
      - congruence. }
    exact (nth_error_In _ _ Hk').
Qed.

Lemma codes_cover_range_witness :
  exists chain_to_num chain_to_start_index chain_to_end_index row,
    process_token_chains ["B"; "A"; "B"]
    = Ok (chain_to_num, chain_to_start_index, chain_to_end_index, [row])
    /\ forall k, In k row <-> k < List.length (distinct ["B"; "A"; "B"]).
Proof.
  apply (codes_cover_range ["B"; "A"; "B"]).
  intros c Hc. vm_compute in Hc. each_path Hc; reflexivity.
Defined.

(** X4: when no label ends in NUL and the occurrences of a label form one
    contiguous run, the
    recorded start is the position at which the run begins and the recorded
    end the position at which it ends. *)
Theorem contiguous_run_bounds (pre post : list string) (c : string) (n : nat) :
  clean_labels (pre ++ repeat c (S n) ++ post) ->
  ~ In c pre -> ~ In c post ->
  exists chain_to_num chain_to_start_index chain_to_end_index token_chain_nums,
    process_token_chains (pre ++ repeat c (S n) ++ post)
    = Ok (chain_to_num, chain_to_start_index, chain_to_end_index, token_chain_nums)
    /\ dict_get chain_to_start_index c = Some (List.length pre)
    /\ dict_get chain_to_end_index c = Some (List.length pre + n).
Proof.
  intros Hclean Hpre Hpost.
  destruct (process_token_chains_spec (pre ++ repeat c (S n) ++ post) Hclean)
    as (num & starts & ends & row & Heq & _ & _ & _ & _ & _ & Hs & He & _).
  exists num, starts, ends, [row]. split; [exact Heq|]. split.
  - apply Hs. split.
    + rewrite nth_error_app2 by lia. rewrite Nat.sub_diag. reflexivity.
    + intros j Hj Hc. rewrite nth_error_app1 in Hc by exact Hj.
      apply Hpre. exact (nth_error_In _ _ Hc).
  - apply He. split.
    + rewrite nth_error_app2 by lia.
      replace (List.length pre + n - List.length pre) with n by lia.
      rewrite nth_error_app1 by (rewrite repeat_length; lia).
      apply nth_error_repeat. lia.
    + intros j Hj Hc.
      rewrite nth_error_app2 in Hc by lia.
      rewrite nth_error_app2 in Hc by (rewrite repeat_length; lia).
      apply Hpost. exact (nth_error_In _ _ Hc).
Qed.

Lemma contiguous_run_bounds_witness :
  exists chain_to_num chain_to_start_index chain_to_end_index token_chain_nums,
    process_token_chains (["A"; "A"] ++ repeat "B" (S 2) ++ ["C"])
    = Ok (chain_to_num, chain_to_start_index, chain_to_end_index, token_chain_nums)
    /\ dict_get chain_to_start_index "B" = Some (List.length ["A"; "A"])
    /\ dict_get chain_to_end_index "B" = Some (List.length ["A"; "A"] + 2).
Proof.
  apply (contiguous_run_bounds ["A"; "A"] ["C"] "B" 2).
  - intros c Hc. vm_compute in Hc. each_path Hc; reflexivity.
  - simpl. intros [H|[H|[]]]; discriminate.
  - simpl. intros [H|[]]; discriminate.
Defined.

(* ================================================================= *)
(** ** When a model is rendered *)

Lemma chain_labels_total (starts ends : dict nat) :
  (forall c, In c (keys starts) -> dict_get ends c <> None) ->
  exists labels,
    chain_labels starts ends = Ok labels
    /\ List.length labels = 2 * List.length (keys starts).
Proof.
  intros Hends. unfold chain_labels.
  match goal with |- exists _, foldM ?f _ _ = _ /\ _ => set (body := f) end.
  assert (Hgen : forall l acc,
            (forall c, In c l -> In c (keys starts)) ->
            exists res, foldM body l acc = Ok res
                        /\ List.length res = List.length acc + 2 * List.length l).
  { induction l as [|c l IH]; intros acc Hl; simpl.
    - exists acc. split; [reflexivity|lia].
    - assert (Hc : In c (keys starts)) by (apply Hl; now left).
      unfold body at 1. unfold getitem.
      destruct (dict_get starts c) as [s|] eqn:Es;
        [|apply dict_get_None in Es; contradiction].
      destruct (dict_get ends c) as [e|] eqn:Ee;
        [|exfalso; exact (Hends c Hc Ee)].
      cbn [Py.bind].
      destruct (IH (acc ++ label_texts c s e)) as (res & Hres & Hlen).
      { intros c' Hc'. apply Hl. now right. }
      exists res. split; [exact Hres|].
      rewrite Hlen, length_app. simpl. lia. }
  destruct (Hgen (keys starts) []) as (res & Hres & Hlen); [auto|].
  exists res. split; [exact Hres|exact Hlen].
Qed.

Lemma segmentation_labels_total (ids : list string) (num starts ends : dict nat)
  (nums : list (list nat)) :
  process_token_chains ids = Ok (num, starts, ends, nums) ->
  exists labels,
    chain_labels starts ends = Ok labels
    /\ List.length labels = 2 * List.length (distinct (Np.array ids)).
Proof.
  intros Hseg.
  destruct (process_token_chains_array_spec ids)
    as (num' & starts' & ends' & row & Heq & _ & Ks & Ke & _).
  rewrite Hseg in Heq. injection Heq as -> -> -> ->.
  destruct (chain_labels_total starts' ends') as (labels & Hl & Hlen).
  - intros c Hc. rewrite dict_get_None, Ke, <- Ks. tauto.
  - exists labels. split; [exact Hl|].
    now rewrite Hlen, Ks, unique_length.
Qed.

Section ComposeCases.

Variables (fulls confs : list Json.json) (n : nat) (o : Json.object).
Hypothesis Hfull : nth_error fulls n = Some (Json.JObject o).

Lemma compose_summary_other :
  nth_error confs n = Some Json.JOther ->
  compose fulls confs n = Raise (AttributeError "keys").
Proof.
  intros Hconf. unfold compose, list_getitem. rewrite Hfull, Hconf. reflexivity.
Qed.

Lemma compose_missing_key (oc : Json.object) (key : string) :
  nth_error confs n = Some (Json.JObject oc) ->
  first_missing_key o = Some key ->
  compose fulls confs n = Raise (KeyError key).
Proof.
  intros Hconf Hkey. unfold compose, list_getitem. rewrite Hfull, Hconf.
  cbn [Py.bind Json.keys Json.getitem].
  unfold first_missing_key in Hkey.
  destruct (Json.token_chain_ids o) as [ids|]; [|now injection Hkey as <-].
  cbn [Py.bind].
  destruct (process_token_chains_closed ids) as (row & -> & _).
  cbn [Py.bind].
  destruct (Json.token_res_ids o) as [res|]; [|now injection Hkey as <-].
  cbn [Py.bind].
  destruct (Json.pae o) as [pae|]; [discriminate|now injection Hkey as <-].
Qed.

Lemma compose_complete (oc : Json.object) :
  nth_error confs n = Some (Json.JObject oc) ->
  first_missing_key o = None ->
  exists fig, compose fulls confs n = Ok fig.
Proof.
  intros Hconf Hkey. unfold compose, list_getitem. rewrite Hfull, Hconf.
  cbn [Py.bind Json.keys Json.getitem].
  unfold first_missing_key in Hkey.
  destruct (Json.token_chain_ids o) as [ids|]; [|discriminate].
  destruct (Json.token_res_ids o) as [res|]; [|discriminate].
  destruct (Json.pae o) as [pae|]; [|discriminate].
  cbn [Py.bind].
  destruct (process_token_chains ids) as [[[[num starts] ends] nums]|e] eqn:Eseg.
  - destruct (segmentation_labels_total _ _ _ _ _ Eseg) as (labels & Hl & _).
    cbn [Py.bind fst snd]. rewrite Hl. cbn [Py.bind]. eexists. reflexivity.
  - destruct (process_token_chains_closed ids) as (row & Hrow & _). congruence.
Qed.

End ComposeCases.

(** Whatever [compose] raises makes the interpreter exit with status 1. *)
Lemma compose_raise_exit (fulls confs : list Json.json) (n : nat) (e : exn) :
  compose fulls confs n = Raise e -> exit_status (@Raise unit e) = 1%Z.
Proof.
  intros H.
  destruct (nth_error fulls n) as [[o|]|] eqn:Ef.
  - destruct (nth_error confs n) as [[oc|]|] eqn:Ec.
    + destruct (first_missing_key o) as [key|] eqn:Ek.
      * rewrite (compose_missing_key _ _ _ _ Ef oc key Ec Ek) in H.
        injection H as <-. reflexivity.
      * destruct (compose_complete _ _ _ _ Ef oc Ec Ek) as (fig & Hfig). congruence.
    + rewrite (compose_summary_other _ _ _ _ Ef Ec) in H.
      injection H as <-. reflexivity.
    + unfold compose, list_getitem in H. rewrite Ef, Ec in H.
      cbn in H. injection H as <-. reflexivity.
  - unfold compose, list_getitem in H. rewrite Ef in H.
    cbn in H. injection H as <-. reflexivity.
  - unfold compose, list_getitem in H. rewrite Ef in H.
    cbn in H. injection H as <-. reflexivity.
Qed.

(* ================================================================= *)
(** ** The figures of a run *)

Lemma saved_paths_app (tr1 tr2 : list event) :
  saved_paths (tr1 ++ tr2) = saved_paths tr1 ++ saved_paths tr2.
Proof. apply flat_map_app. Qed.

Lemma saved_paths_opens (paths : list string) : saved_paths (map Open paths) = [].
Proof. induction paths as [|p paths IH]; [reflexivity|exact IH]. Qed.

Lemma firstn_seq (k a n : nat) : firstn k (seq a n) = seq a (Nat.min k n).
Proof.
  revert a n. induction k as [|k IH]; intros a [|n]; simpl; try reflexivity.
  f_equal. apply IH.
Qed.

Section LoopPrefix.

Variables (json_data_full json_data_confidence : list Json.json).
Variable alphafold_prediction_name : string.

Let body (model_num : nat) : IO.t unit :=
  (fig <- IO.lift (compose json_data_full json_data_confidence model_num) ;;
   IO.emit (Savefig (figure_name alphafold_prediction_name model_num)
              300 "tight" false fig))%io.

(** The loop saves the figures of the models before the first one that
    raises, and stops there. *)
Lemma loop_prefix (models : list nat) (tr : list event) :
  exists k,
    k <= List.length models
    /\ (forall i, In i (firstn k models) ->
          exists fig, compose json_data_full json_data_confidence i = Ok fig)
    /\ saved_paths (fst (IO.for_each models body tr))
       = saved_paths tr ++ map (figure_name alphafold_prediction_name) (firstn k models)
    /\ ((k = List.length models /\ snd (IO.for_each models body tr) = Ok tt)
        \/ exists m e,
             nth_error models k = Some m
             /\ compose json_data_full json_data_confidence m = Raise e
             /\ snd (IO.for_each models body tr) = Raise e).
Proof.
  unfold body. revert tr. induction models as [|n models IH]; intros tr.
  - exists 0. simpl. rewrite app_nil_r. repeat split; auto. intros i [].
  - simpl. unfold IO.bind at 1.
    rewrite (body_eq json_data_full json_data_confidence alphafold_prediction_name).
    destruct (compose json_data_full json_data_confidence n) as [fig|e] eqn:E.
    + destruct (IH (tr ++ [Savefig (figure_name alphafold_prediction_name n)
                              300 "tight" false fig]))
        as (k & Hk & Hok & Hpaths & Hend).
      exists (S k). split; [simpl; lia|]. split; [|split].
      * intros i [<-|Hi]; [eauto|auto].
      * rewrite Hpaths, saved_paths_app. simpl. now rewrite <- app_assoc.
      * destruct Hend as [[-> Hend]|(m & e & Hm & Hc & Hend)].
        -- left. split; [reflexivity|exact Hend].
        -- right. exists m, e. auto.
    + exists 0. simpl. rewrite app_nil_r.
      split; [lia|]. split; [intros i []|]. split; [reflexivity|].
      right. exists n, e. auto.
Qed.

End LoopPrefix.



Lemma compose_full_other (fulls confs : list Json.json) (n : nat) :
  nth_error fulls n = Some Json.JOther ->
  compose fulls confs n = Raise (AttributeError "keys").
Proof.
  intros Hfull. unfold compose, list_getitem. rewrite Hfull. reflexivity.
Qed.

(** A figure is composed only from two objects, the full-data one with its
    three keys. *)
Lemma compose_ok_complete (fulls confs : list Json.json) (n : nat) (fig : figure) :
  compose fulls confs n = Ok fig ->
  exists o oc,
    nth_error fulls n = Some (Json.JObject o)
    /\ nth_error confs n = Some (Json.JObject oc)
    /\ first_missing_key o = None.
Proof.
  intros H.
  destruct (nth_error fulls n) as [[o|]|] eqn:Ef.
  - destruct (nth_error confs n) as [[oc|]|] eqn:Ec.
    + destruct (first_missing_key o) as [key|] eqn:Ek.
      * rewrite (compose_missing_key _ _ _ _ Ef oc key Ec Ek) in H. discriminate.
      * exists o, oc. auto.
    + rewrite (compose_summary_other _ _ _ _ Ef Ec) in H. discriminate.
    + unfold compose, list_getitem in H. rewrite Ef, Ec in H. discriminate.
  - rewrite (compose_full_other _ _ _ Ef) in H. discriminate.
  - unfold compose, list_getitem in H. rewrite Ef in H. discriminate.
Qed.

Lemma compose_ok_files (fs : filesystem) (name : string) (fulls confs : list Json.json)
  (n : nat) (fig : figure) :
  Forall2 (fun p j => fs p = Some (Valid j)) (json_name_full name) fulls ->
  Forall2 (fun p j => fs p = Some (Valid j)) (json_name_confidence name) confs ->
  compose fulls confs n = Ok fig ->
  complete fs name n.
Proof.
  intros Hf Hc Hcomp.
  destruct (compose_ok_complete _ _ _ _ Hcomp) as (o & oc & Hfull & Hconf & Hkey).
  destruct (Forall2_nth_error_r _ _ _ Hf n _ Hfull) as (pf & Hpf & Hfs).
  destruct (Forall2_nth_error_r _ _ _ Hc n _ Hconf) as (pc & Hpc & Hfs').
  exists o, oc. split; [|exact Hkey].
  exists pf, pc. auto.
Qed.


(** X5: a run exits with status 0 only if it returns normally, the two
    files of each of the five models hold JSON objects, every full-data
    object has the keys [token_chain_ids], [token_res_ids] and [pae], and
    the five figures [figure_pae_0.png], ..., [figure_pae_4.png] are saved,
    in this order. *)
Theorem exit_zero_means_all_rendered (fs : filesystem) (argv : list string) :
  exit_status (snd (IO.run (script fs argv))) = 0%Z ->
  exists name,
    nth_error argv 1 = Some name
    /\ snd (IO.run (script fs argv)) = Ok tt
    /\ (forall i, i < 5 -> complete fs name i)
    /\ saved_paths (fst (IO.run (script fs argv)))
       = map (figure_name name) (seq 0 5).
Proof.
  destruct argv as [|prog [|name rest]]; [discriminate|discriminate|].
  rewrite script_with_argument. intros Hzero.
  exists name. split; [reflexivity|].
  destruct (main_loaded_dec fs name)
    as [(fulls & confs & Hf & Hc)|(opened & e & Hrun & He)].
  - rewrite (main_loaded fs name fulls confs Hf Hc) in *.
    destruct (loop_prefix fulls confs name (range 5)
                (map Open (json_name_full name) ++ map Open (json_name_confidence name)))
      as (k & Hk & Hok & Hpaths & Hend).
    unfold range in *. rewrite length_seq in Hk.
    rewrite firstn_seq in Hok, Hpaths.
    rewrite Nat.min_l in Hok, Hpaths by exact Hk.
    rewrite <- map_app, saved_paths_opens in Hpaths. simpl in Hpaths.
    destruct Hend as [[Hk5 Hend]|(m & e & Hm & He & Hend)].
    + rewrite length_seq in Hk5. subst k.
      split; [exact Hend|]. split; [|exact Hpaths].
      intros i Hi. destruct (Hok i) as (fig & Hfig); [apply in_seq; lia|].
      exact (compose_ok_files fs name fulls confs i fig Hf Hc Hfig).
    + exfalso. rewrite Hend in Hzero.
      rewrite (compose_raise_exit _ _ _ _ He) in Hzero. discriminate.
  - exfalso. rewrite Hrun in Hzero. cbn [snd] in Hzero.
    rewrite He in Hzero. discriminate.
Qed.

Lemma exit_zero_means_all_rendered_witness :
  exists name,
    nth_error example_argv 1 = Some name
    /\ snd (IO.run (script example_fs example_argv)) = Ok tt
    /\ (forall i, i < 5 -> complete example_fs name i)
    /\ saved_paths (fst (IO.run (script example_fs example_argv)))
       = map (figure_name name) (seq 0 5).
Proof.
  apply (exit_zero_means_all_rendered example_fs example_argv).
  vm_compute. reflexivity.
Defined.






(** X9: a figure is saved only when all ten input files are there and
    parse. *)
Theorem figure_needs_all_files (fs : filesystem) (argv : list string) (ev : event) :
  In ev (fst (IO.run (script fs argv))) -> is_savefig ev = true ->
  exists name, nth_error argv 1 = Some name /\ all_parse fs name.
Proof.
  intros Hin Hsave.
  destruct (script_savefig fs argv ev Hin Hsave) as (name & Hname & Hmain).
  exists name. split; [exact Hname|].
  destruct ev as [p|line|path dpi bbox transparent fig]; try discriminate.
  destruct (main_savefig _ _ _ _ _ _ _ Hmain) as (fulls & confs & n & Hf & Hc & _).
  intros p Hp. apply in_app_or in Hp. destruct Hp as [Hp|Hp].
  - exact (loaded_all_present fs _ _ p Hf Hp).
  - exact (loaded_all_present fs _ _ p Hc Hp).
Qed.

Lemma figure_needs_all_files_witness :
  exists name, nth_error example_argv 1 = Some name /\ all_parse example_fs name.
Proof.
  apply (figure_needs_all_files example_fs example_argv
           (Savefig "fold/figure_pae_0.png" 300 "tight" false example_figure)).
  - vm_compute. do 10 right. left. reflexivity.
  - reflexivity.
Defined.

Section ReadsBeforeWrites.

Variables (json_data_full json_data_confidence : list Json.json).
Variable alphafold_prediction_name : string.

(** The loop adds nothing but saved figures to the log. *)
Lemma loop_saves (models : list nat) (tr : list event) :
  exists saved,
    fst (IO.for_each models
           (fun model_num =>
              (fig <- IO.lift (compose json_data_full json_data_confidence model_num) ;;
               IO.emit (Savefig (figure_name alphafold_prediction_name model_num)
                          300 "tight" false fig))%io) tr)
    = tr ++ saved
    /\ forallb is_savefig saved = true.
Proof.
  revert tr. induction models as [|n models IH]; intros tr; simpl.
  - exists []. split; [now rewrite app_nil_r|reflexivity].
  - unfold IO.bind at 1.
    rewrite (body_eq json_data_full json_data_confidence alphafold_prediction_name).
    destruct (compose json_data_full json_data_confidence n) as [fig|e].
    + destruct (IH (tr ++ [Savefig (figure_name alphafold_prediction_name n)
                             300 "tight" false fig])) as (saved & Hsaved & Hall).
      exists (Savefig (figure_name alphafold_prediction_name n) 300 "tight" false fig
              :: saved).
      split; [|exact Hall]. rewrite Hsaved, <- app_assoc. reflexivity.
    + exists []. split; [now rewrite app_nil_r|reflexivity].
Qed.

End ReadsBeforeWrites.

(** Loading stops at the first file that is missing or malformed. *)
Lemma load_first_failure (fs : filesystem) (paths : list string) (tr : list event) :
  (exists js, Forall2 (fun p j => fs p = Some (Valid j)) paths js)
  \/ (exists i p e,
        nth_error paths i = Some p
        /\ (forall j, fs p <> Some (Valid j))
        /\ (forall i' p', i' < i -> nth_error paths i' = Some p' ->
              exists j, fs p' = Some (Valid j))
        /\ IO.mapM (json_load_open fs) paths tr
           = (tr ++ map Open (firstn (S i) paths), Raise e)).
Proof.
  revert tr. induction paths as [|p paths IH]; intros tr.
  - left. exists []. constructor.
  - rewrite load_cons. destruct (fs p) as [[|j]|] eqn:Hp.
    + right. exists 0, p, (JSONDecodeError p).
      split; [reflexivity|]. split; [congruence|]. split; [intros i' p' Hi'; lia|].
      reflexivity.
    + destruct (IH (tr ++ [Open p]))
        as [(js & HF)|(i & q & e & Hq & Hbad & Hbefore & Hrun)].
      * left. exists (j :: js). constructor; assumption.
      * right. exists (S i), q, e.
        split; [exact Hq|]. split; [exact Hbad|]. split.
        -- intros [|i'] p' Hi' Hp'; simpl in Hp'.
           ++ injection Hp' as <-. eauto.
           ++ apply (Hbefore i' p'); [lia|exact Hp'].
        -- rewrite Hrun. rewrite <- app_assoc. reflexivity.
    + right. exists 0, p, (FileNotFoundError p).
      split; [reflexivity|]. split; [congruence|]. split; [intros i' p' Hi'; lia|].
      reflexivity.
Qed.

(** X10: a run with a directory argument opens the input files in the fixed
    order, the five full-data files and then the five summaries. When all
    ten are there and parse, it opens all ten and after that only saves
    figures; otherwise it opens the files up to the first one that is
    missing or malformed, this one included, opens no other file and saves
    no figure. *)
Theorem reads_before_writes (fs : filesystem) (prog name : string)
  (rest : list string) :
  (all_parse fs name
   /\ exists saved,
        fst (IO.run (script fs (prog :: name :: rest)))
        = map Open (json_name_full name ++ json_name_confidence name) ++ saved
        /\ forallb is_savefig saved = true)
  \/ (exists i p,
        nth_error (json_name_full name ++ json_name_confidence name) i = Some p
        /\ (forall j, fs p <> Some (Valid j))
        /\ (forall i' p', i' < i ->
              nth_error (json_name_full name ++ json_name_confidence name) i' = Some p' ->
              exists j, fs p' = Some (Valid j))
        /\ fst (IO.run (script fs (prog :: name :: rest)))
           = map Open (firstn (S i) (json_name_full name ++ json_name_confidence name))).
Proof.
  rewrite script_with_argument. unfold IO.run.
  destruct (load_first_failure fs (json_name_full name) [])
    as [(fulls & Hf)|(i & p & e & Hp & Hbad & Hbefore & Hrun)].
  - destruct (load_first_failure fs (json_name_confidence name)
                ([] ++ map Open (json_name_full name)))
      as [(confs & Hc)|(i & p & e & Hp & Hbad & Hbefore & Hrun)].
    + left. split.
      * intros p Hp. apply in_app_or in Hp. destruct Hp as [Hp|Hp].
        -- exact (loaded_all_present fs _ _ p Hf Hp).
        -- exact (loaded_all_present fs _ _ p Hc Hp).
      * pose proof (main_loaded fs name fulls confs Hf Hc) as Hmain.
        unfold IO.run in Hmain. rewrite Hmain.
        destruct (loop_saves fulls confs name (range 5)
                    (map Open (json_name_full name)
                     ++ map Open (json_name_confidence name)))
          as (saved & Hsaved & Hall).
        exists saved. rewrite Hsaved, map_app.
        split; [reflexivity|exact Hall].
    + assert (Hmain : main fs name []
                      = (([] ++ map Open (json_name_full name))
                         ++ map Open (firstn (S i) (json_name_confidence name)),
                         Raise e)).
      { unfold main. unfold IO.bind at 1. rewrite (load_all_ok fs _ _ _ Hf).
        unfold IO.bind at 1. rewrite Hrun. reflexivity. }
      rewrite Hmain. cbn [fst app].
      right. exists (List.length (json_name_full name) + i), p.
      split; [|split; [exact Hbad|split]].
      * rewrite nth_error_app2 by lia.
        replace (List.length (json_name_full name) + i
                 - List.length (json_name_full name)) with i by lia.
        exact Hp.
      * intros i' p' Hi' Hp'.
        destruct (Nat.lt_ge_cases i' (List.length (json_name_full name))) as [Hlt|Hge].
        -- rewrite nth_error_app1 in Hp' by exact Hlt.
           exact (loaded_all_present fs _ _ p' Hf (nth_error_In _ _ Hp')).
        -- rewrite nth_error_app2 in Hp' by exact Hge.
           apply (Hbefore (i' - List.length (json_name_full name)) p'); [lia|exact Hp'].
      * replace (S (List.length (json_name_full name) + i))
          with (List.length (json_name_full name) + S i) by lia.
        rewrite firstn_app_2, map_app. reflexivity.
  - assert (Hmain : main fs name []
                    = ([] ++ map Open (firstn (S i) (json_name_full name)), Raise e)).
    { unfold main. unfold IO.bind at 1. rewrite Hrun. reflexivity. }
    rewrite Hmain. cbn [fst app].
    right. exists i, p.
    assert (Hi : i < List.length (json_name_full name))
      by (apply nth_error_Some; congruence).
    split; [|split; [exact Hbad|split]].
    + rewrite nth_error_app1 by exact Hi. exact Hp.
    + intros i' p' Hi' Hp'.
      rewrite nth_error_app1 in Hp' by lia. exact (Hbefore i' p' Hi' Hp').
    + rewrite firstn_app.
      replace (S i - List.length (json_name_full name)) with 0 by lia.
      rewrite firstn_O, app_nil_r. reflexivity.
Qed.

(* ================================================================= *)
(** ** The tick positions that are computed and not used *)

Lemma xticks_fold (token_res_ids : list Z) (positions : list nat)
  (loc : list nat) (present : list Z) :
  fold_left
    (fun acc i =>
       let r := nth i token_res_ids 0%Z in
       if false || (r mod 200 =? 0)%Z
       then (fst acc ++ [i], snd acc ++ [r])
       else acc)
    positions (loc, present)
  = (loc ++ filter (fun i => (nth i token_res_ids 0 mod 200 =? 0)%Z) positions,
     present ++ map (fun i => nth i token_res_ids 0%Z)
                  (filter (fun i => (nth i token_res_ids 0 mod 200 =? 0)%Z) positions)).
Proof.
  revert loc present.
  induction positions as [|i positions IH]; intros loc present; simpl.
  - now rewrite !app_nil_r.
  - destruct (nth i token_res_ids 0 mod 200 =? 0)%Z; simpl.
    + rewrite IH. now rewrite <- !app_assoc.
    + apply IH.
Qed.

(** X11: [xticks_loc] holds, in increasing order, exactly the positions
    whose residue number is a multiple of 200, and [xticks_present] the
    residue numbers at these positions; a residue numbered 1 gets no tick,
    since [token_res_ids == 1] compares the whole list with 1. *)
Theorem xticks_multiples_of_200 (token_res_ids : list Z) :
  fst (xticks token_res_ids)
  = filter (fun i => (nth i token_res_ids 0 mod 200 =? 0)%Z)
      (seq 0 (List.length token_res_ids))
  /\ snd (xticks token_res_ids)
     = map (fun i => nth i token_res_ids 0%Z) (fst (xticks token_res_ids))
  /\ (forall i, In i (fst (xticks token_res_ids)) ->
        exists r, nth_error token_res_ids i = Some r /\ (r mod 200 = 0)%Z)
  /\ (forall i, nth_error token_res_ids i = Some 1%Z ->
        ~ In i (fst (xticks token_res_ids))).
Proof.
  unfold xticks, range. rewrite xticks_fold. cbn [fst snd app].
  split; [reflexivity|]. split; [reflexivity|].
  assert (Hin : forall i,
            In i (filter (fun i => (nth i token_res_ids 0 mod 200 =? 0)%Z)
                    (seq 0 (List.length token_res_ids))) ->
            exists r, nth_error token_res_ids i = Some r /\ (r mod 200 = 0)%Z).
  { intros i Hi. apply filter_In in Hi. destruct Hi as [Hi Hmod].
    apply in_seq in Hi. exists (nth i token_res_ids 0%Z). split.
    - apply nth_error_nth'. lia.
    - now apply Z.eqb_eq. }
  split; [exact Hin|].
  intros i Hi Hticked. destruct (Hin i Hticked) as (r & Hr & Hmod).
  rewrite Hi in Hr. injection Hr as <-. discriminate Hmod.
Qed.

(* ================================================================= *)
(** ** The paths of the input files *)

Lemma prefix_sep_append (name rest : string) :
  name <> "" -> prefix "/" (name ++ rest) = prefix "/" name.
Proof.
  destruct name as [|c name]; [contradiction|]. intros _.
  cbn [append prefix].
  destruct (ascii_dec "/" c); [destruct name, rest; reflexivity|reflexivity].
Qed.

(** X12: for a directory name that is not empty, does not start with [/]
    and does not end with [/], the input files are looked up inside the
    directory, as [name/name_full_data_i.json] and
    [name/name_summary_confidences_i.json] for i = 0, ..., 4. *)
Theorem input_paths_of_relative_name (name : string) :
  name <> "" -> prefix "/" name = false -> endswith_sep name = false ->
  json_name_full name
  = map (fun i => (name ++ "/" ++ name ++ "_full_data_" ++ str i ++ ".json")%string) (seq 0 5)
  /\ json_name_confidence name
     = map (fun i => (name ++ "/" ++ name ++ "_summary_confidences_" ++ str i ++ ".json")%string)
         (seq 0 5).
Proof.
  intros Hne Hrel Hend.
  assert (Hlen : (String.length name =? 0) = false).
  { destruct name; [contradiction|reflexivity]. }
  unfold json_name_full, json_name_confidence, range, os_path_join.
  split; apply map_ext; intros i;
    rewrite prefix_sep_append by exact Hne;
    now rewrite Hrel, Hlen, Hend.
Qed.

Lemma input_paths_of_relative_name_witness :
  json_name_full "fold"
  = map (fun i => ("fold" ++ "/" ++ "fold" ++ "_full_data_" ++ str i ++ ".json")%string) (seq 0 5)
  /\ json_name_confidence "fold"
     = map (fun i => ("fold" ++ "/" ++ "fold" ++ "_summary_confidences_" ++ str i ++ ".json")%string)
         (seq 0 5).
Proof.
  apply (input_paths_of_relative_name "fold").
  - discriminate.
  - reflexivity.
  - reflexivity.
Defined.

(** X13: for a directory name that starts with [/], [os.path.join] drops its
    first argument, the second one being absolute: the input files are
    looked up beside the directory, as [name_full_data_i.json] and
    [name_summary_confidences_i.json], while the figures are saved inside it,
    as [name/figure_pae_i.png]. *)
Theorem input_paths_of_absolute_name (name : string) :
  prefix "/" name = true ->
  json_name_full name
  = map (fun i => (name ++ "_full_data_" ++ str i ++ ".json")%string) (seq 0 5)
  /\ json_name_confidence name
     = map (fun i => (name ++ "_summary_confidences_" ++ str i ++ ".json")%string) (seq 0 5)
  /\ forall i, figure_name name i = (name ++ "/figure_pae_" ++ str i ++ ".png")%string.
Proof.
  intros Habs.
  assert (Hne : name <> "") by (intros ->; discriminate).
  unfold json_name_full, json_name_confidence, range, os_path_join.
  split; [|split; [|reflexivity]]; apply map_ext; intros i;
    rewrite prefix_sep_append by exact Hne; now rewrite Habs.
Qed.

Lemma input_paths_of_absolute_name_witness :
  json_name_full "/data/fold"
  = map (fun i => ("/data/fold" ++ "_full_data_" ++ str i ++ ".json")%string) (seq 0 5)
  /\ json_name_confidence "/data/fold"
     = map (fun i => ("/data/fold" ++ "_summary_confidences_" ++ str i ++ ".json")%string) (seq 0 5)
  /\ forall i, figure_name "/data/fold" i = ("/data/fold" ++ "/figure_pae_" ++ str i ++ ".png")%string.
Proof.
  apply (input_paths_of_absolute_name "/data/fold"). reflexivity.
Defined.

(* ================================================================= *)
(** ** What a saved figure shows *)

Lemma filter_text_boundary_lines (starts : dict nat) :
  filter is_text (boundary_lines starts) = [].
Proof.
  apply filter_none. intros l Hl. apply boundary_lines_In in Hl.
  destruct Hl as (c & s & _ & _ & [<-|[<-|[<-|[<-|[]]]]]); reflexivity.
Qed.

Lemma filter_text_labels (starts ends : dict nat) (labels : figure) :
  chain_labels starts ends = Ok labels -> filter is_text labels = labels.
Proof.
  intros Hl. pose proof (chain_labels_In _ _ _ Hl) as Hin.
  assert (Hall : forall t, In t labels -> is_text t = true).
  { intros t Ht. apply Hin in Ht.
    destruct Ht as (c & s & e & _ & _ & _ & [<-|[<-|[]]]); reflexivity. }
  clear Hl Hin. induction labels as [|t labels IH]; [reflexivity|].
  simpl. rewrite (Hall t) by now left.
  f_equal. apply IH. intros t' Ht'. apply Hall. now right.
Qed.

Lemma filter_other_length (u : list string) (x : string) :
  NoDup u -> In x u ->
  List.length (filter (fun c => negb (String.eqb c x)) u) = List.length u - 1.
Proof.
  induction 1 as [|y u Hy Hnd IH]; intros Hx; [destruct Hx|].
  simpl. destruct (String.eqb_spec y x) as [->|Hne]; simpl.
  - rewrite Nat.sub_0_r. f_equal.
    rewrite <- (filter_true u) at 2. apply filter_ext_in.
    intros c Hc. destruct (String.eqb_spec c x) as [->|_]; [contradiction|reflexivity].
  - destruct Hx as [Hx|Hx]; [contradiction|].
    rewrite (IH Hx). destruct u; [destruct Hx|simpl; lia].
Qed.

Lemma boundary_lines_map_length (f : string -> nat) (u : list string) :
  List.length (boundary_lines (map (fun c => (c, f c)) u))
  = 4 * List.length (filter (fun c => negb (f c =? 0)) u).
Proof.
  unfold boundary_lines, items.
  induction u as [|c u IH]; [reflexivity|].
  cbn [map flat_map snd filter]. rewrite length_app, IH.
  destruct (f c =? 0); simpl; lia.
Qed.

(** The number of separators: four for each chain but the one that starts at
    position 0. *)
Lemma boundary_lines_length (ids : list string) (num starts ends : dict nat)
  (nums : list (list nat)) :
  process_token_chains ids = Ok (num, starts, ends, nums) ->
  List.length (boundary_lines starts)
  = 4 * (List.length (distinct (Np.array ids)) - 1).
Proof.
  intros Hseg.
  destruct (process_token_chains_closed ids) as (row & Heq & _).
  rewrite Hseg in Heq. injection Heq as -> -> -> ->.
  clear Hseg. generalize (Np.array ids). clear ids. intros ids.
  rewrite boundary_lines_map_length, <- unique_length. f_equal.
  destruct ids as [|x ids]; [reflexivity|].
  rewrite <- (filter_other_length (Np.unique (x :: ids)) x).
  - f_equal. apply filter_ext_in. intros c Hc.
    apply (proj1 (unique_In c (x :: ids))) in Hc.
    pose proof (first_occurrence_hd _ _ Hc) as Hfirst.
    f_equal.
    destruct (String.eqb_spec c x) as [->|Hne].
    + apply Nat.eqb_eq.
      apply (first_occurrence_unique (x :: ids) x); [exact Hfirst|].
      split; [reflexivity|]. intros j Hj. lia.
    + apply Nat.eqb_neq. intros H0. rewrite H0 in Hfirst.
      destruct Hfirst as [Hnth _]. simpl in Hnth. congruence.
  - apply unique_NoDup.
  - apply unique_In. now left.
Qed.

(** The figure composed for a model shows the data of that model. *)
Lemma compose_shape (fulls confs : list Json.json) (n : nat) (fig : figure) :
  compose fulls confs n = Ok fig ->
  exists o ids pae_array row,
    nth_error fulls n = Some (Json.JObject o)
    /\ Json.token_chain_ids o = Some ids
    /\ Json.pae o = Some pae_array
    /\ (exists num starts ends,
          process_token_chains ids = Ok (num, starts, ends, [row]))
    /\ In (imshow ax (float_array pae_array) "Greens_r" (Some 0%Q) (Some 30%Q) None None)
         fig
    /\ In (imshow ax_topbar (int_array [row]) "tab10" None None
             (Some "auto") (Some (7 # 10))) fig
    /\ In (imshow ax_leftbar (int_array (map (fun k => [k]) row)) "tab10" None None
             (Some "auto") (Some (7 # 10))) fig
    /\ List.length (filter is_line fig)
       = 4 * (List.length (distinct (Np.array ids)) - 1)
    /\ List.length (filter is_text fig) = 2 * List.length (distinct (Np.array ids)).
Proof.
  unfold compose. intros H.
  bind_inv H full Efull. apply list_getitem_inv in Efull.
  bind_inv H ks Eks. bind_inv H confidence Econf. bind_inv H kc Ekc.
  bind_inv H ids Eids.
  apply json_getitem_inv in Eids. destruct Eids as (o & -> & Hids).
  bind_inv H seg Eseg. destruct seg as [[[num starts] ends] nums].
  bind_inv H token_res_ids Eres. bind_inv H pae_array Epae.
  apply json_getitem_inv in Epae. destruct Epae as (o' & [= <-] & Hpae).
  bind_inv H labels Elabels.
  cbv zeta in H. cbn [fst snd] in H, Elabels.
  destruct (process_token_chains_closed ids) as (row & Hclosed & _).
  assert (Hnums : nums = [row]) by congruence. subst nums.
  match type of H with
  | Ok ((?X ++ _) ++ _) = _ => set (layout := X) in H
  end.
  assert (Hfig : fig = layout ++ boundary_lines starts ++ labels)
    by (rewrite app_assoc; congruence).
  assert (Hlayout : forall c, In c layout -> is_line c = false /\ is_text c = false).
  { intros c Hc.
    assert (Hb : forallb (fun c => negb (is_line c) && negb (is_text c)) layout = true)
      by reflexivity.
    rewrite forallb_forall in Hb. specialize (Hb c Hc).
    destruct (is_line c), (is_text c); try discriminate. auto. }
  exists o, ids, pae_array, row.
  split; [exact Efull|]. split; [exact Hids|]. split; [exact Hpae|].
  split; [eauto|].
  rewrite Hfig.
  split; [apply in_or_app; left; unfold layout; simpl; tauto|].
  split; [apply in_or_app; left; unfold layout; simpl; tauto|].
  split; [apply in_or_app; left; unfold layout; simpl; tauto|].
  rewrite !filter_app.
  rewrite (filter_none is_line layout) by (intros c Hc; apply Hlayout, Hc).
  rewrite (filter_none is_text layout) by (intros c Hc; apply Hlayout, Hc).
  rewrite filter_boundary_lines, filter_text_boundary_lines.
  rewrite (filter_text_labels _ _ _ Elabels).
  rewrite (filter_none is_line labels).
  - cbn [app]. rewrite app_nil_r. split.
    + exact (boundary_lines_length _ _ _ _ _ Eseg).
    + destruct (segmentation_labels_total _ _ _ _ _ Eseg) as (labels' & Hl & Hlen).
      congruence.
  - intros t Ht. apply (chain_labels_In _ _ _ Elabels) in Ht.
    destruct Ht as (c & s & e & _ & _ & _ & [<-|[<-|[]]]); reflexivity.
Qed.

(** X14: the figure saved as [figure_pae_n.png] shows the data of model [n]:
    the center panel is the [pae] matrix of the full-data file of model [n],
    as it is in the file, on the colour scale [Greens_r] from 0 to 30; the
    top strip is the coded array of the [token_chain_ids] of the same file
    and the left strip its transpose; the figure is saved at 300 dpi with a
    tight bounding box and an opaque background. *)
Theorem saved_figure_shows_its_model (fs : filesystem) (argv : list string)
  (path bbox : string) (dpi : Z) (transparent : bool) (fig : figure) :
  In (Savefig path dpi bbox transparent fig) (fst (IO.run (script fs argv))) ->
  exists name model_num p o ids pae_array num starts ends row,
    nth_error argv 1 = Some name
    /\ path = figure_name name model_num
    /\ nth_error (json_name_full name) model_num = Some p
    /\ fs p = Some (Valid (Json.JObject o))
    /\ Json.token_chain_ids o = Some ids
    /\ Json.pae o = Some pae_array
    /\ process_token_chains ids = Ok (num, starts, ends, [row])
    /\ In (imshow ax (float_array pae_array) "Greens_r" (Some 0%Q) (Some 30%Q) None None)
         fig
    /\ In (imshow ax_topbar (int_array [row]) "tab10" None None
             (Some "auto") (Some (7 # 10))) fig
    /\ In (imshow ax_leftbar (int_array (map (fun k => [k]) row)) "tab10" None None
             (Some "auto") (Some (7 # 10))) fig
    /\ dpi = 300%Z /\ bbox = "tight" /\ transparent = false.
Proof.
  intros Hin.
  destruct (script_savefig _ _ _ Hin eq_refl) as (name & Hname & Hmain).
  destruct (main_savefig _ _ _ _ _ _ _ Hmain)
    as (fulls & confs & n & Hf & Hc & Hn & Hcomp & Hpath & Hdpi & Hbbox & Htr).
  destruct (compose_shape _ _ _ _ Hcomp)
    as (o & ids & pae_array & row & Hfull & Hids & Hpae
        & (num & starts & ends & Hseg) & Hcenter & Htop & Hleft & _).
  destruct (Forall2_nth_error_r _ _ _ Hf n _ Hfull) as (p & Hp & Hfs).
  exists name, n, p, o, ids, pae_array, num, starts, ends, row.
  repeat (split; [assumption|]). assumption.
Qed.

Lemma saved_figure_shows_its_model_witness :
  exists name model_num p o ids pae_array num starts ends row,
    nth_error example_argv 1 = Some name
    /\ "fold/figure_pae_0.png" = figure_name name model_num
    /\ nth_error (json_name_full name) model_num = Some p
    /\ example_fs p = Some (Valid (Json.JObject o))
    /\ Json.token_chain_ids o = Some ids
    /\ Json.pae o = Some pae_array
    /\ process_token_chains ids = Ok (num, starts, ends, [row])
    /\ In (imshow ax (float_array pae_array) "Greens_r" (Some 0%Q) (Some 30%Q) None None)
         example_figure
    /\ In (imshow ax_topbar (int_array [row]) "tab10" None None
             (Some "auto") (Some (7 # 10))) example_figure
    /\ In (imshow ax_leftbar (int_array (map (fun k => [k]) row)) "tab10" None None
             (Some "auto") (Some (7 # 10))) example_figure
    /\ 300%Z = 300%Z /\ "tight" = "tight" /\ false = false.
Proof.
  apply (saved_figure_shows_its_model example_fs example_argv
           "fold/figure_pae_0.png" "tight" 300 false example_figure).
  vm_compute. do 10 right. left. reflexivity.
Defined.

(** X15: a figure saved from chain labels that do not end in NUL holds two
    texts for each distinct chain label and
    four separator lines for each distinct label but one, the label at
    position 0 (no line when there is no label). *)
Theorem saved_figure_counts (fs : filesystem) (argv : list string)
  (path bbox : string) (dpi : Z) (transparent : bool) (fig : figure) :
  In (Savefig path dpi bbox transparent fig) (fst (IO.run (script fs argv))) ->
  clean_inputs fs argv ->
  exists name model_num p o ids,
    nth_error argv 1 = Some name
    /\ path = figure_name name model_num
    /\ nth_error (json_name_full name) model_num = Some p
    /\ fs p = Some (Valid (Json.JObject o))
    /\ Json.token_chain_ids o = Some ids
    /\ List.length (filter is_line fig) = 4 * (List.length (distinct ids) - 1)
    /\ List.length (filter is_text fig) = 2 * List.length (distinct ids).
Proof.
  intros Hin Hinputs.
  destruct (script_savefig _ _ _ Hin eq_refl) as (name & Hname & Hmain).
  destruct (main_savefig _ _ _ _ _ _ _ Hmain)
    as (fulls & confs & n & Hf & Hc & Hn & Hcomp & Hpath & _).
  destruct (compose_shape _ _ _ _ Hcomp)
    as (o & ids & pae_array & row & Hfull & Hids & _ & _ & _ & _ & _ & Hlines & Htexts).
  destruct (Forall2_nth_error_r _ _ _ Hf n _ Hfull) as (p & Hp & Hfs).
  pose proof (Hinputs name p o ids Hname (nth_error_In _ _ Hp) Hfs Hids) as Hclean.
  rewrite (array_clean ids Hclean) in Hlines, Htexts.
  exists name, n, p, o, ids.
  repeat (split; [assumption|]). assumption.
Qed.

Lemma saved_figure_counts_witness :
  exists name model_num p o ids,
    nth_error example_argv 1 = Some name
    /\ "fold/figure_pae_0.png" = figure_name name model_num
    /\ nth_error (json_name_full name) model_num = Some p
    /\ example_fs p = Some (Valid (Json.JObject o))
    /\ Json.token_chain_ids o = Some ids
    /\ List.length (filter is_line example_figure) = 4 * (List.length (distinct ids) - 1)
    /\ List.length (filter is_text example_figure) = 2 * List.length (distinct ids).
Proof.
  apply (saved_figure_counts example_fs example_argv
           "fold/figure_pae_0.png" "tight" 300 false example_figure).
  - vm_compute. do 10 right. left. reflexivity.
  - example_inputs_clean.
Defined.

(** The frames and ticks of a composed figure. *)
Lemma compose_frames (fulls confs : list Json.json) (n : nat) (fig : figure) :
  compose fulls confs n = Ok fig ->
  (forall spine, In spine spines ->
     In (spine_set_visible ax_topbar spine false) fig
     /\ In (spine_set_visible ax_leftbar spine false) fig
     /\ In (spine_set_linestyle ax spine "--") fig
     /\ In (spine_set_linewidth ax spine 1) fig
     /\ In (spine_set_color ax spine "k") fig)
  /\ In (set_xticks ax_topbar []) fig /\ In (set_yticks ax_topbar []) fig
  /\ In (set_xticks ax_leftbar []) fig /\ In (set_yticks ax_leftbar []) fig
  /\ In (set_yticks ax []) fig
  /\ (forall ticks, ~ In (set_xticks ax ticks) fig)
  /\ (forall spine visible, ~ In (spine_set_visible ax spine visible) fig).
Proof.
  unfold compose. intros H.
  bind_inv H full Efull. bind_inv H ks Eks. bind_inv H confidence Econf.
  bind_inv H kc Ekc. bind_inv H ids Eids. bind_inv H seg Eseg.
  destruct seg as [[[num starts] ends] nums].
  bind_inv H token_res_ids Eres. bind_inv H pae_array Epae.
  bind_inv H labels Elabels.
  cbv zeta in H. cbn [fst snd] in H, Elabels.
  match type of H with
  | Ok ((?X ++ _) ++ _) = _ => set (layout := X) in H
  end.
  assert (Hfig : fig = layout ++ boundary_lines starts ++ labels)
    by (rewrite app_assoc; congruence).
  assert (Hrest : forall c, In c (boundary_lines starts ++ labels) ->
                            is_line c = true \/ is_text c = true).
  { intros c Hc. apply in_app_or in Hc. destruct Hc as [Hc|Hc].
    - left. apply boundary_lines_In in Hc.
      destruct Hc as (l & s & _ & _ & [<-|[<-|[<-|[<-|[]]]]]); reflexivity.
    - right. apply (chain_labels_In _ _ _ Elabels) in Hc.
      destruct Hc as (c' & s & e & _ & _ & _ & [<-|[<-|[]]]); reflexivity. }
  assert (Hnever : forall c, In c layout ->
            match c with
            | set_xticks a _ | spine_set_visible a _ _ =>
                match a with ax => False | _ => True end
            | _ => True
            end).
  { intros c Hc. unfold layout in Hc. simpl in Hc.
    repeat (destruct Hc as [<-|Hc]; [exact I|]). destruct Hc. }
  rewrite Hfig.
  split; [|repeat split].
  - intros spine Hspine. simpl in Hspine.
    repeat (destruct Hspine as [<-|Hspine];
            [repeat split; apply in_or_app; left; unfold layout; simpl; tauto|]).
    destruct Hspine.
  - apply in_or_app; left; unfold layout; simpl; tauto.
  - apply in_or_app; left; unfold layout; simpl; tauto.
  - apply in_or_app; left; unfold layout; simpl; tauto.
  - apply in_or_app; left; unfold layout; simpl; tauto.
  - apply in_or_app; left; unfold layout; simpl; tauto.
  - intros ticks Hin. apply in_app_or in Hin. destruct Hin as [Hin|Hin].
    + exact (Hnever _ Hin).
    + destruct (Hrest _ Hin); discriminate.
  - intros spine visible Hin. apply in_app_or in Hin. destruct Hin as [Hin|Hin].
    + exact (Hnever _ Hin).
    + destruct (Hrest _ Hin); discriminate.
Qed.

(** X16: in every saved figure the four spines of the top strip and of the
    left strip are hidden and their ticks are cleared ([hide_axes_frame]);
    the center panel keeps its four spines, dashed, of width 1 and black,
    has its y ticks cleared, and its x ticks are never set. *)
Theorem saved_figure_frames (fs : filesystem) (argv : list string)
  (path bbox : string) (dpi : Z) (transparent : bool) (fig : figure) :
  In (Savefig path dpi bbox transparent fig) (fst (IO.run (script fs argv))) ->
  (forall spine, In spine ["left"; "right"; "bottom"; "top"] ->
     In (spine_set_visible ax_topbar spine false) fig
     /\ In (spine_set_visible ax_leftbar spine false) fig
     /\ In (spine_set_linestyle ax spine "--") fig
     /\ In (spine_set_linewidth ax spine 1) fig
     /\ In (spine_set_color ax spine "k") fig)
  /\ In (set_xticks ax_topbar []) fig /\ In (set_yticks ax_topbar []) fig
  /\ In (set_xticks ax_leftbar []) fig /\ In (set_yticks ax_leftbar []) fig
  /\ In (set_yticks ax []) fig
  /\ (forall ticks, ~ In (set_xticks ax ticks) fig)
  /\ (forall spine visible, ~ In (spine_set_visible ax spine visible) fig).
Proof.
  intros Hin.
  destruct (script_savefig _ _ _ Hin eq_refl) as (name & Hname & Hmain).
  destruct (main_savefig _ _ _ _ _ _ _ Hmain)
    as (fulls & confs & n & _ & _ & _ & Hcomp & _).
  exact (compose_frames _ _ _ _ Hcomp).
Qed.

Lemma saved_figure_frames_witness :
  (forall spine, In spine ["left"; "right"; "bottom"; "top"] ->
     In (spine_set_visible ax_topbar spine false) example_figure
     /\ In (spine_set_visible ax_leftbar spine false) example_figure
     /\ In (spine_set_linestyle ax spine "--") example_figure
     /\ In (spine_set_linewidth ax spine 1) example_figure
     /\ In (spine_set_color ax spine "k") example_figure)
  /\ In (set_xticks ax_topbar []) example_figure
  /\ In (set_yticks ax_topbar []) example_figure
  /\ In (set_xticks ax_leftbar []) example_figure
  /\ In (set_yticks ax_leftbar []) example_figure
  /\ In (set_yticks ax []) example_figure
  /\ (forall ticks, ~ In (set_xticks ax ticks) example_figure)
  /\ (forall spine visible, ~ In (spine_set_visible ax spine visible) example_figure).
Proof.
  apply (saved_figure_frames example_fs example_argv
           "fold/figure_pae_0.png" "tight" 300 false example_figure).
  vm_compute. do 10 right. left. reflexivity.
Defined.
